(** * A shallow embedding of the Wasabi wallet JSON-RPC client (package [wasabi])

    The Go package consists of three files: the string-typed enumerations
    ([Method] and friends), [structs.go] (the [Config] record, its
    [Validate] method and the response structs) and [client.go] (the
    request encoder, the response decoder, the [do] pipeline and one thin
    wrapper per remote operation).

    Conventions of the embedding:
    - a Go [string] is a [string] (a sequence of bytes), a Go [int] is a
      [Z]: the package never does arithmetic on them, they are only
      compared and printed;
    - a Go map or slice is a reference that may be [nil]: [gomap] and
      [slice] are options, [None] being [nil];
    - a method with a pointer receiver returns the receiver's new contents;
    - calls into the Go standard library that reach the outside world
      (crypto/rand, encoding/json, net/http, sync) are effects of a small
      free monad; the environment answers them. *)

From Stdlib Require Import ZArith String Ascii List DecimalString Lia.
From stdpp Require Import base option gmap strings list fin_maps.

Local Open Scope string_scope.
Local Open Scope list_scope.
Local Open Scope Z_scope.

Set Implicit Arguments.
Set Warnings "-register-all".

(** ** Go values *)

(** [[]T]: [None] is the nil slice. *)
Definition slice (T : Type) : Type := option (list T).

(** [map[K]V] with string keys: [None] is the nil map. *)
Definition gomap (V : Type) : Type := option (gmap string V).

(** [float64], by its IEEE 754 bits ([math.Float64bits]). *)
Record float64 := { Float64bits : Z }.

(** [time.Time]: wall clock, monotonic extension and location pointer. *)
Record Time := { wall : Z; ext : Z; loc : option Z }.

(** The zero value of a Go type. *)
Class Zero (T : Type) := zero : T.

#[export] Instance Zero_string : Zero string := "".
#[export] Instance Zero_int : Zero Z := 0.
#[export] Instance Zero_bool : Zero bool := false.
#[export] Instance Zero_float64 : Zero float64 := {| Float64bits := 0 |}.
#[export] Instance Zero_Time : Zero Time := {| wall := 0; ext := 0; loc := None |}.
#[export] Instance Zero_pointer (T : Type) : Zero (option T) := None.

(** ** The parts of the standard library that are pure *)

Module strings.

(** [strings.ContainsAny(s, chars)] for ASCII [chars]. *)
Fixpoint IndexByte (chars : string) (c : ascii) : bool :=
  match chars with
  | EmptyString => false
  | String d chars' => Ascii.eqb c d || IndexByte chars' c
  end.

Fixpoint ContainsAny (s chars : string) : bool :=
  match s with
  | EmptyString => false
  | String c s' => IndexByte chars c || ContainsAny s' chars
  end.

End strings.

Module base64.

Definition encodeStd : string :=
  "ABCDEFGHIJKLMNOPQRSTUVWXYZabcdefghijklmnopqrstuvwxyz0123456789+/".

Definition StdPadding : ascii := "="%char.

(** [enc.encode[val>>k & 0x3F]] *)
Definition sextet (val : N) (k : N) : ascii :=
  match String.get (N.to_nat (N.land (N.shiftr val k) 63)) encodeStd with
  | Some c => c
  | None => StdPadding
  end.

(** [Encoding.Encode]: three source bytes at a time, then the
    remainder of one or two bytes with padding. *)
Fixpoint Encode (src : list N) : string :=
  match src with
  | [] => ""
  | [a] =>
      let val := N.shiftl a 16 in
      String (sextet val 18) (String (sextet val 12)
        (String StdPadding (String StdPadding "")))
  | [a; b] =>
      let val := N.lor (N.shiftl a 16) (N.shiftl b 8) in
      String (sextet val 18) (String (sextet val 12)
        (String (sextet val 6) (String StdPadding "")))
  | a :: b :: c :: rest =>
      let val := N.lor (N.lor (N.shiftl a 16) (N.shiftl b 8)) c in
      String (sextet val 18) (String (sextet val 12)
        (String (sextet val 6) (String (sextet val 0) (Encode rest))))
  end.

(** [[]byte(s)] *)
Fixpoint bytes_of (s : string) : list N :=
  match s with
  | EmptyString => []
  | String c s' => N_of_ascii c :: bytes_of s'
  end.

(** [base64.StdEncoding.EncodeToString([]byte(s))] *)
Definition EncodeToString (s : string) : string := Encode (bytes_of s).

End base64.

Module fmt.

(** The verbs [%d] and [%v] at an [int]. *)
Definition itoa (n : Z) : string := NilZero.string_of_int (Z.to_int n).

End fmt.

(** ** Errors *)

(** The parameter structs of [structs.go]. *)
Module Payment.
Record t := { SendTo : string; Amount : Z; Label : string }.
End Payment.

Module Coin.
Record t := { TransactionID : string; Index : Z }.
End Coin.

Module any.

(** [interface{}] as the package uses it: request parameters
    ([nil], [[]interface{}{...}], [map[string]interface{}{...}] and what
    they hold) and the decoded [data] member of an RPC error. *)
Inductive t :=
| Nil
| Bool (b : bool)
| Int (n : Z)
| Float (f : float64)
| Str (s : string)
| Payments (p : slice Payment.t)
| Coins (c : slice Coin.t)
| Slice (l : list t)
| Map (m : list (string * t)).

End any.

Definition RPCErrorCode := Z.

Definition E_PARSE : RPCErrorCode := -32700.
Definition E_INVALID_REQ : RPCErrorCode := -32600.
Definition E_NO_METHOD : RPCErrorCode := -32601.
Definition E_BAD_PARAMS : RPCErrorCode := -32602.
Definition E_INTERNAL : RPCErrorCode := -32603.
Definition E_SERVER : RPCErrorCode := -32000.

Record RPCError := {
  Code : RPCErrorCode;
  Message : string;
  Data : any.t
}.

#[export] Instance Zero_RPCError : Zero RPCError :=
  {| Code := 0; Message := ""; Data := any.Nil |}.

(** Error values. [RPCErrNullResult] is the package's sentinel (it is
    compared by identity, so it has a constructor of its own);
    [errorString] is [errors.New] or [fmt.Errorf] without [%w];
    [wrapError] is an error that unwraps to another one. *)
Inductive error :=
| RPCErrNullResult
| errorString (msg : string)
| wrapError (msg : string) (err : error)
| rpcError (e : RPCError).

(** [err.Error()] *)
Fixpoint Error (err : error) : string :=
  match err with
  | RPCErrNullResult => "result is null"
  | errorString msg => msg
  | wrapError msg err' => msg +:+ Error err'
  | rpcError e => Message e
  end.

(** [errors.Is(err, RPCErrNullResult)] *)
Fixpoint errors_Is_RPCErrNullResult (err : error) : bool :=
  match err with
  | RPCErrNullResult => true
  | wrapError _ err' => errors_Is_RPCErrNullResult err'
  | _ => false
  end.

(** ** The string-typed enumerations *)

(** [type Method string] *)
Definition Method := string.

Definition MethodGetStatus : Method := "getstatus".
Definition MethodCreateWallet : Method := "createwallet".
Definition MethodLoadWallet : Method := "loadwallet".
Definition MethodListCoins : Method := "listcoins".
Definition MethodListUnspentCoins : Method := "listunspentcoins".
Definition MethodGetWalletInfo : Method := "getwalletinfo".
Definition MethodGetNewAddress : Method := "getnewaddress".
Definition MethodSend : Method := "send".
Definition MethodBuild : Method := "build".
Definition MethodBroadcast : Method := "broadcast".
Definition MethodGetHistory : Method := "gethistory".
Definition MethodListKeys : Method := "listkeys".
Definition MethodStartCoinJoin : Method := "startcoinjoin".
Definition MethodStartCoinJoinSweep : Method := "startcoinjoinsweep".
Definition MethodStopCoinJoin : Method := "stopcoinjoin".
Definition MethodStop : Method := "stop".
Definition MethodGetFeeRates : Method := "getfeerates".
Definition MethodListWallets : Method := "listwallets".
Definition MethodExcludeFromCoinJoin : Method := "excludefromcoinjoin".
Definition MethodRecoverWallet : Method := "recoverwallet".
Definition MethodBuildUnsafeTransaction : Method := "buildunsafetransaction".
Definition MethodPayInCoinJoin : Method := "payincoinjoin".
Definition MethodListPaymentsInCoinJoin : Method := "listpaymentsincoinjoin".
Definition MethodCancelPaymentInCoinJoin : Method := "cancelpaymentincoinjoin".
Definition MethodCancelTransaction : Method := "canceltransaction".
Definition MethodSpeedUpTransaction : Method := "speeduptransaction".

(** [(m Method).String] *)
Definition Method_String (m : Method) : string := m.

Definition BitcoinNetwork := string.
Definition CoinJoinStatus := string.
Definition PaymentStatus := string.
Definition BackendStatus := string.
Definition TorStatus := string.
Definition WalletState := string.

(** ** structs.go: the response structs *)

Module BitcoinPeer.
Record t := {
  IsConnected : bool;
  LastSeen : Time;
  Endpoint : string;
  UserAgent : string
}.
End BitcoinPeer.

Module GetStatusResponse.
Record t := {
  TorStatus : TorStatus;
  BackendStatus : BackendStatus;
  BestBlockchainHeight : Z;
  BestBlockchainHash : string;
  FiltersCount : Z;
  FiltersLeft : Z;
  Network : BitcoinNetwork;
  ExchangeRate : float64;
  Peers : slice BitcoinPeer.t
}.
End GetStatusResponse.

Module ListCoinsResponse.
Record t := {
  TxID : string;
  Index : Z;
  Amount : Z;
  AnonymityScore : float64;
  Confirmed : bool;
  Confirmations : Z;
  KeyPath : string;
  Address : string;
  SpentBy : option string;
  Label : string;
  ExcludedFromCoinJoin : bool
}.
End ListCoinsResponse.

Module WalletInfoAccount.
Record t := { Name : string; PublicKey : string; KeyPath : string }.
End WalletInfoAccount.

Module GetWalletInfoResponse.
Record t := {
  WalletName : string;
  WalletFile : string;
  State : WalletState;
  MasterKeyFingerprint : string;
  AnonScoreTarget : Z;
  IsWatchOnly : bool;
  IsHardwareWallet : bool;
  IsAutoCoinJoin : bool;
  IsRedCoinIsolation : bool;
  Accounts : slice WalletInfoAccount.t;
  Balance : Z;
  CoinJoinStatus : CoinJoinStatus
}.
End GetWalletInfoResponse.

Module GetNewAddressResponse.
Record t := {
  Address : string;
  KeyPath : string;
  Label : string;
  PublicKey : string;
  ScriptPubKey : string
}.
End GetNewAddressResponse.

Module SendResponse.
Record t := { TransactionID : string; Transaction : string }.
End SendResponse.

Module Transaction.
Record t := {
  DateTime : Time;
  Height : Z;
  Amount : Z;
  Label : string;
  Tx : string;
  IsLikelyCoinJoin : bool
}.
End Transaction.

Module GeneratedKey.
Record t := {
  FullKeyPath : string;
  Internal : bool;
  KeyState : Z;
  Label : string;
  ScriptPubKey : string;
  PubKey : string;
  PubKeyHash : string;
  Address : string
}.
End GeneratedKey.

(** [type GetFeeRatesResponse map[string]int] *)
Definition GetFeeRatesResponse : Type := gomap Z.

Module ListWalletsResponseItem.
Record t := { Name : string }.
End ListWalletsResponseItem.

Module PaymentInCoinJoinStateHistoryItem.
Record t := { Status : PaymentStatus; Round : Z; TxID : string }.
End PaymentInCoinJoinStateHistoryItem.

Module ListPaymentsInCoinJoinResponseItem.
Record t := {
  ID : string;
  Amount : Z;
  Destination : string;
  State : slice PaymentInCoinJoinStateHistoryItem.t;
  Address : string
}.
End ListPaymentsInCoinJoinResponseItem.

(** The composite literals [T{}] of the struct types: every field zero. *)
#[export] Instance Zero_GetStatusResponse : Zero GetStatusResponse.t :=
  {| GetStatusResponse.TorStatus := "";
     GetStatusResponse.BackendStatus := "";
     GetStatusResponse.BestBlockchainHeight := 0;
     GetStatusResponse.BestBlockchainHash := "";
     GetStatusResponse.FiltersCount := 0;
     GetStatusResponse.FiltersLeft := 0;
     GetStatusResponse.Network := "";
     GetStatusResponse.ExchangeRate := zero;
     GetStatusResponse.Peers := None |}.

#[export] Instance Zero_GetWalletInfoResponse : Zero GetWalletInfoResponse.t :=
  {| GetWalletInfoResponse.WalletName := "";
     GetWalletInfoResponse.WalletFile := "";
     GetWalletInfoResponse.State := "";
     GetWalletInfoResponse.MasterKeyFingerprint := "";
     GetWalletInfoResponse.AnonScoreTarget := 0;
     GetWalletInfoResponse.IsWatchOnly := false;
     GetWalletInfoResponse.IsHardwareWallet := false;
     GetWalletInfoResponse.IsAutoCoinJoin := false;
     GetWalletInfoResponse.IsRedCoinIsolation := false;
     GetWalletInfoResponse.Accounts := None;
     GetWalletInfoResponse.Balance := 0;
     GetWalletInfoResponse.CoinJoinStatus := "" |}.

#[export] Instance Zero_GetNewAddressResponse : Zero GetNewAddressResponse.t :=
  {| GetNewAddressResponse.Address := "";
     GetNewAddressResponse.KeyPath := "";
     GetNewAddressResponse.Label := "";
     GetNewAddressResponse.PublicKey := "";
     GetNewAddressResponse.ScriptPubKey := "" |}.

#[export] Instance Zero_SendResponse : Zero SendResponse.t :=
  {| SendResponse.TransactionID := ""; SendResponse.Transaction := "" |}.

(** ** structs.go: the configuration *)

(** [http.RoundTripper], by identity. *)
Inductive RoundTripper := roundTripper (id : nat).

Record Config := {
  Host : string;
  Port : Z;
  CustomHeaders : gomap string;
  Transport : option RoundTripper;
  RpcUser : string;
  RpcPassword : string
}.

Definition set_Port (c : Config) (p : Z) : Config :=
  {| Host := Host c; Port := p; CustomHeaders := CustomHeaders c;
     Transport := Transport c; RpcUser := RpcUser c;
     RpcPassword := RpcPassword c |}.

Definition set_CustomHeaders (c : Config) (h : gomap string) : Config :=
  {| Host := Host c; Port := Port c; CustomHeaders := h;
     Transport := Transport c; RpcUser := RpcUser c;
     RpcPassword := RpcPassword c |}.

Definition nonempty (s : string) : bool := negb (String.eqb s "").

(** The body of [for k, v := range c.CustomHeaders], over the entries in
    the order of the iteration. *)
Fixpoint check_headers (entries : list (string * string)) : option error :=
  match entries with
  | [] => None
  | (k, v) :: rest =>
      if String.eqb k "" then
        Some (errorString "custom header key must not be empty")
      else if String.eqb v "" then
        Some (errorString "custom header value must not be empty")
      else if String.eqb k "Authorization" then
        Some (errorString "custom header key must not be Authorization")
      else check_headers rest
  end.

(** [for k, v := range m] visits the entries of [m] in an order that Go
    leaves unspecified, and no entry when [m] is nil. *)
Definition range (V : Type) (m : gomap V) : list (string * V) :=
  match m with
  | Some m => map_to_list m
  | None => []
  end.

Definition notnil (T : Type) (p : option T) : bool :=
  match p with Some _ => true | None => false end.

(** [(c *Config).Validate]: the receiver after the call and the error.
    The [switch] has no [fallthrough]: the first case whose guard holds
    is the only one that runs. *)
Definition Validate (c : Config) : Config * option error :=
  if String.eqb (Host c) "" then
    (c, Some (errorString "host must not be empty"))
  else if strings.ContainsAny (Host c) "/:" then
    (c, Some (errorString "host must not contain / or :"))
  else if Port c =? 0 then
    (set_Port c 37128, None)
  else if (Port c <? 0) || (Port c >? 65535) then
    (c, Some (errorString "port must be between 0 and 65535"))
  else if nonempty (RpcUser c) && negb (nonempty (RpcPassword c)) then
    (c, Some (errorString "rpc password must not be empty if rpc user is set"))
  else if negb (nonempty (RpcUser c)) && nonempty (RpcPassword c) then
    (c, Some (errorString "rpc user must not be empty if rpc password is set"))
  else if notnil (CustomHeaders c) then
    (c, check_headers (range (CustomHeaders c)))
  else if nonempty (RpcUser c) && nonempty (RpcPassword c) then
    let basicAuth :=
      base64.EncodeToString (RpcUser c +:+ ":" +:+ RpcPassword c) in
    match CustomHeaders c with
    | Some m =>
        (set_CustomHeaders c
           (Some (<["Authorization" := "Basic " +:+ basicAuth]> m)), None)
    | None =>
        (set_CustomHeaders c
           (Some {["Authorization" := "Basic " +:+ basicAuth]}), None)
    end
  else (c, None).

(** ** client.go: wire types *)

#[export] Instance Zero_slice (T : Type) : Zero (slice T) := None.
#[export] Instance Zero_GetFeeRatesResponse : Zero GetFeeRatesResponse := None.

(** [json.RawMessage]: the bytes of one JSON value. *)
Definition RawMessage := string.

Module clientRequest.
Record t := {
  Version : string;
  Method : string;
  Params : any.t;
  Id : Z
}.
End clientRequest.

(** The pointers [*json.RawMessage] are nil when the member is absent or
    is the literal [null]. *)
Module clientResponse.
Record t := {
  Version : string;
  Result : option RawMessage;
  Error : option RawMessage
}.
End clientResponse.

(** [*http.Client]: the default client, or one built around the
    configured transport. *)
Inductive http_Client :=
| http_DefaultClient
| http_ClientWith (Transport : RoundTripper).

(** [*http.Request]. [Header] lists the [Header.Set(k, v)] calls made on
    the request, oldest first. *)
Module Request.
Record t := {
  Method : string;
  URL : string;
  Header : list (string * string);
  Body : string
}.

Definition Header_Set (k v : string) (req : t) : t :=
  {| Method := Method req; URL := URL req;
     Header := Header req ++ [(k, v)]; Body := Body req |}.
End Request.

(** [*http.Response]: the status code and the bytes behind [Body]. *)
Module Response.
Record t := { StatusCode : Z; Body : string }.
End Response.

Definition http_StatusOK : Z := 200.
Definition http_MethodPost : string := "POST".
Definition math_MaxInt64 : Z := 9223372036854775807.

(** [net.Conn], by identity. *)
Definition Conn := nat.

(** A Go result pair [(value, err)] in which exactly one side is set. *)
Definition result (A : Type) : Type := (A + error)%type.

(** ** Effects and programs *)

(** The calls that leave the package. [json_Unmarshal] is
    [json.Unmarshal(data, v)] at a non-nil pointer whose target holds [v]:
    the answer is the target afterwards (it may have been written even
    when an error comes back) and the error. [json_Unmarshal_nil] is the
    same call at a nil interface, which encoding/json always refuses.
    [http_NewRequest] answers the error of [http.NewRequest], if any. *)
Inductive effect : Type -> Type :=
| rand_Int (max : Z) : effect (result Z)
| json_Marshal (c : clientRequest.t) : effect (result string)
| http_NewRequest (method url body : string) : effect (option error)
| mutex_Lock : effect unit
| mutex_Unlock : effect unit
| httpClient_Do (hc : http_Client) (req : Request.t) : effect (result Response.t)
| json_Decode (body : string) : effect (result clientResponse.t)
| json_Unmarshal_RPCError (data : RawMessage) (v : RPCError)
    : effect (RPCError * option error)
| json_Unmarshal (T : Type) (data : RawMessage) (v : T)
    : effect (T * option error)
| json_Unmarshal_nil (data : RawMessage) : effect error
| Body_Close (body : string) : effect unit
| net_Dial (network address : string) : effect (result Conn)
| Conn_Close (conn : Conn) : effect unit.

(** A program is a finite tree of effects. *)
Inductive prog (A : Type) : Type :=
| Ret (a : A)
| Vis (X : Type) (e : effect X) (k : X -> prog A).

Arguments Ret {A} a.
Arguments Vis {A X} e k.

Fixpoint bind (A B : Type) (p : prog A) (f : A -> prog B) : prog B :=
  match p with
  | Ret a => f a
  | Vis e k => Vis e (fun x => bind (k x) f)
  end.

Definition perform (X : Type) (e : effect X) : prog X := Vis e Ret.

Declare Scope prog_scope.
Delimit Scope prog_scope with prog.
Bind Scope prog_scope with prog.
Notation "'let*' x ':=' p 'in' q" := (bind p (fun x => q))
  (at level 10, x binder, p at level 100, q at level 200) : prog_scope.
Notation "p ;; q" := (bind p (fun _ => q))
  (at level 100, q at level 200, right associativity) : prog_scope.
Local Open Scope prog_scope.

(** ** client.go: the client *)

(** The [client] struct; its [mutex] lives in the execution state. *)
Record client := {
  httpClient : http_Client;
  host : string;
  port : Z;
  headers : gomap string
}.

(** [NewClient] *)
Definition NewClient (cfg : Config) : option client * option error :=
  let '(cfg, err) := Validate cfg in
  match err with
  | Some err => (None, Some (wrapError "invalid config: " err))
  | None =>
      (Some {| httpClient :=
                 match Transport cfg with
                 | None => http_DefaultClient
                 | Some t => http_ClientWith t
                 end;
               host := Host cfg;
               port := Port cfg;
               headers := CustomHeaders cfg |},
       None)
  end.

(** [val.Uint64()] of a [*big.Int]: the low 64 bits of the magnitude. *)
Definition Uint64 (val : Z) : Z := Z.land (Z.abs val) (Z.ones 64).

(** [encodeClientRequest] *)
Definition encodeClientRequest (method : string) (args : any.t)
  : prog (result string) :=
  let* r := perform (rand_Int math_MaxInt64) in
  match r with
  | inr err => Ret (inr (wrapError "failed to generate request id: " err))
  | inl val =>
      perform (json_Marshal {| clientRequest.Version := "2.0";
                            clientRequest.Method := method;
                            clientRequest.Params := args;
                            clientRequest.Id := Uint64 val |})
  end.

(** The [reply interface{}] argument: nil, or a pointer to a variable of
    type [T] that currently holds [v]. *)
Inductive reply : Type -> Type :=
| reply_nil : reply unit
| reply_ptr (T : Type) (v : T) : reply T.

Definition contents (T : Type) (r : reply T) : T :=
  match r with
  | reply_nil => tt
  | reply_ptr v => v
  end.

(** [decodeClientResponse]: what the target of [reply] holds afterwards,
    and the error. *)
Definition decodeClientResponse (T : Type) (r : string) (out : reply T)
  : prog (T * option error) :=
  let* d := perform (json_Decode r) in
  match d with
  | inr err => Ret (contents out, Some err)
  | inl c =>
      match clientResponse.Error c with
      | Some cError =>
          let* '(jsonErr, err) := perform (json_Unmarshal_RPCError cError zero) in
          match err with
          | Some _ =>
              Ret (contents out,
                   Some (rpcError {| Code := E_SERVER;
                                     Message := cError;
                                     Data := any.Nil |}))
          | None => Ret (contents out, Some (rpcError jsonErr))
          end
      | None =>
          match clientResponse.Result c with
          | None => Ret (contents out, Some RPCErrNullResult)
          | Some cResult =>
              match out in reply T return prog (T * option error) with
              | reply_nil =>
                  let* err := perform (json_Unmarshal_nil cResult) in
                  Ret (tt, Some err)
              | reply_ptr v => perform (json_Unmarshal cResult v)
              end
          end
      end
  end.

(** [fmt.Sprintf("http://%s:%d/%s", host, port, targetWalletName)] *)
Definition Sprintf_url (host : string) (port : Z) (targetWalletName : string)
  : string :=
  "http://" +:+ host +:+ ":" +:+ fmt.itoa port +:+ "/" +:+ targetWalletName.

(** [if c.headers != nil { for k, v := range c.headers {
    req.Header.Set(k, v) } }] *)
Definition set_headers (h : gomap string) (req : Request.t) : Request.t :=
  if notnil h then
    fold_left (fun req kv => Request.Header_Set kv.1 kv.2 req) (range h) req
  else req.

(** [(c *client).do]. The deferred calls run when the function returns,
    last deferred first: [resp.Body.Close()] and then
    [c.mutex.Unlock()]. *)
Definition do (T : Type) (c : client) (method : Method)
    (targetWalletName : string) (in_ : any.t) (out : reply T)
  : prog (T * option error) :=
  let* enc := encodeClientRequest (Method_String method) in_ in
  match enc with
  | inr err => Ret (contents out, Some err)
  | inl payload =>
      let url := Sprintf_url (host c) (port c) targetWalletName in
      let* nr := perform (http_NewRequest http_MethodPost url payload) in
      match nr with
      | Some err => Ret (contents out, Some err)
      | None =>
          let req :=
            set_headers (headers c)
              {| Request.Method := http_MethodPost; Request.URL := url;
                 Request.Header := []; Request.Body := payload |} in
          perform mutex_Lock ;;
          let* res := (let* r := perform (httpClient_Do (httpClient c) req) in
                  match r with
                  | inr err => Ret (contents out, Some err)
                  | inl resp =>
                      if negb (Response.StatusCode resp =? http_StatusOK) then
                        Ret (contents out,
                             Some (errorString
                                     ("http status " +:+
                                      fmt.itoa (Response.StatusCode resp))))
                      else
                        let* '(v, err) := decodeClientResponse
                                       (Response.Body resp) out in
                        perform (Body_Close (Response.Body resp)) ;;
                        match err with
                        | Some err =>
                            if negb (errors_Is_RPCErrNullResult err)
                            then Ret (v, Some err)
                            else Ret (v, None)
                        | None => Ret (v, None)
                        end
                  end) in
          perform mutex_Unlock ;;
          Ret res
      end
  end.

(** ** client.go: the methods *)

(** [(c *client).IsWasabiWalletUp] *)
Definition client_IsWasabiWalletUp (c : client) : prog bool :=
  let* r := perform (net_Dial "tcp" (host c +:+ ":" +:+ fmt.itoa (port c))) in
  match r with
  | inr _ => Ret false
  | inl conn => perform (Conn_Close conn) ;; Ret true
  end.

(** The parameter object of [Send], [Build] and [BuildUnsafeTransaction]:
    [map[string]interface{}{"payments": payments, "coins": coins,
    "feeTarget": feeTarget, "password": password}]. *)
Definition build_params (payments : slice Payment.t) (coins : slice Coin.t)
    (feeTarget : Z) (password : string) : any.t :=
  any.Map [("payments", any.Payments payments); ("coins", any.Coins coins);
           ("feeTarget", any.Int feeTarget); ("password", any.Str password)].

(** The wrappers, in the order of the source. A wrapper with a payload
    passes [&resp], the address of its named result (which holds the zero
    value), and on an error returns the literal the source writes. *)

Definition client_GetStatus (c : client)
  : prog (GetStatusResponse.t * option error) :=
  let* '(resp, err) :=
    do c MethodGetStatus "" any.Nil
       (reply_ptr (zero : GetStatusResponse.t)) in
  match err with
  | Some err => Ret (zero, Some err)
  | None => Ret (resp, None)
  end.

Definition client_CreateWallet (c : client) (walletName : string) (password : string)
  : prog (string * option error) :=
  let* '(resp, err) :=
    do c MethodCreateWallet "" (any.Slice [any.Str walletName; any.Str password])
       (reply_ptr (zero : string)) in
  match err with
  | Some err => Ret ("", Some err)
  | None => Ret (resp, None)
  end.

Definition client_LoadWallet (c : client) (walletName : string)
  : prog (option error) :=
  let* '(_, err) := do c MethodLoadWallet "" (any.Slice [any.Str walletName]) reply_nil in
  Ret err.

Definition client_ListCoins (c : client) (walletName : string)
  : prog (slice ListCoinsResponse.t * option error) :=
  let* '(resp, err) :=
    do c MethodListCoins walletName any.Nil
       (reply_ptr (zero : slice ListCoinsResponse.t)) in
  match err with
  | Some err => Ret (None, Some err)
  | None => Ret (resp, None)
  end.

Definition client_ListUnspentCoins (c : client) (walletName : string)
  : prog (slice ListCoinsResponse.t * option error) :=
  let* '(resp, err) :=
    do c MethodListUnspentCoins walletName any.Nil
       (reply_ptr (zero : slice ListCoinsResponse.t)) in
  match err with
  | Some err => Ret (None, Some err)
  | None => Ret (resp, None)
  end.

Definition client_GetWalletInfo (c : client) (walletName : string)
  : prog (GetWalletInfoResponse.t * option error) :=
  let* '(resp, err) :=
    do c MethodGetWalletInfo walletName any.Nil
       (reply_ptr (zero : GetWalletInfoResponse.t)) in
  match err with
  | Some err => Ret (zero, Some err)
  | None => Ret (resp, None)
  end.

Definition client_GetNewAddress (c : client) (walletName : string) (label : string)
  : prog (GetNewAddressResponse.t * option error) :=
  let* '(resp, err) :=
    do c MethodGetNewAddress walletName (any.Slice [any.Str label])
       (reply_ptr (zero : GetNewAddressResponse.t)) in
  match err with
  | Some err => Ret (zero, Some err)
  | None => Ret (resp, None)
  end.

Definition client_Send (c : client) (walletName : string) (payments : slice Payment.t) (coins : slice Coin.t) (feeTarget : Z) (password : string)
  : prog (SendResponse.t * option error) :=
  let* '(resp, err) :=
    do c MethodSend walletName (build_params payments coins feeTarget password)
       (reply_ptr (zero : SendResponse.t)) in
  match err with
  | Some err => Ret (zero, Some err)
  | None => Ret (resp, None)
  end.

Definition client_Build (c : client) (walletName : string) (payments : slice Payment.t) (coins : slice Coin.t) (feeTarget : Z) (password : string)
  : prog (string * option error) :=
  let* '(resp, err) :=
    do c MethodBuild walletName (build_params payments coins feeTarget password)
       (reply_ptr (zero : string)) in
  match err with
  | Some err => Ret ("", Some err)
  | None => Ret (resp, None)
  end.

Definition client_Broadcast (c : client) (walletName : string) (hex : string)
  : prog (string * option error) :=
  let* '(resp, err) :=
    do c MethodBroadcast walletName (any.Slice [any.Str hex])
       (reply_ptr (zero : string)) in
  match err with
  | Some err => Ret ("", Some err)
  | None => Ret (resp, None)
  end.

Definition client_GetHistory (c : client) (walletName : string)
  : prog (slice Transaction.t * option error) :=
  let* '(resp, err) :=
    do c MethodGetHistory walletName any.Nil
       (reply_ptr (zero : slice Transaction.t)) in
  match err with
  | Some err => Ret (None, Some err)
  | None => Ret (resp, None)
  end.

Definition client_ListKeys (c : client) (walletName : string)
  : prog (slice GeneratedKey.t * option error) :=
  let* '(resp, err) :=
    do c MethodListKeys walletName any.Nil
       (reply_ptr (zero : slice GeneratedKey.t)) in
  match err with
  | Some err => Ret (None, Some err)
  | None => Ret (resp, None)
  end.

Definition client_StartCoinJoin (c : client) (walletName : string) (password : string) (stopWhenAllMixed : bool) (overridePlebStop : bool)
  : prog (option error) :=
  let* '(_, err) := do c MethodStartCoinJoin walletName (any.Slice [any.Str password; any.Bool stopWhenAllMixed; any.Bool overridePlebStop]) reply_nil in
  Ret err.

Definition client_StartCoinJoinSweep (c : client) (walletName : string) (password : string) (outputWalletName : string)
  : prog (option error) :=
  let* '(_, err) := do c MethodStartCoinJoinSweep walletName (any.Slice [any.Str password; any.Str outputWalletName]) reply_nil in
  Ret err.

Definition client_StopCoinJoin (c : client) (walletName : string)
  : prog (option error) :=
  let* '(_, err) := do c MethodStopCoinJoin walletName any.Nil reply_nil in
  Ret err.

Definition client_Stop (c : client)
  : prog (option error) :=
  let* '(_, err) := do c MethodStop "" any.Nil reply_nil in
  Ret err.

Definition client_GetFeeRates (c : client)
  : prog (GetFeeRatesResponse * option error) :=
  let* '(resp, err) :=
    do c MethodGetFeeRates "" any.Nil
       (reply_ptr (zero : GetFeeRatesResponse)) in
  match err with
  | Some err => Ret (Some ∅, Some err)
  | None => Ret (resp, None)
  end.

Definition client_ListWallets (c : client)
  : prog (slice ListWalletsResponseItem.t * option error) :=
  let* '(resp, err) :=
    do c MethodListWallets "" any.Nil
       (reply_ptr (zero : slice ListWalletsResponseItem.t)) in
  match err with
  | Some err => Ret (None, Some err)
  | None => Ret (resp, None)
  end.

Definition client_ExcludeFromCoinJoin (c : client) (walletName : string) (txID : string) (index : Z) (exclude : bool)
  : prog (option error) :=
  let* '(_, err) := do c MethodExcludeFromCoinJoin walletName (any.Slice [any.Str txID; any.Int index; any.Bool exclude]) reply_nil in
  Ret err.

Definition client_RecoverWallet (c : client) (walletName : string) (mnemonic : string) (password : string)
  : prog (option error) :=
  let* '(_, err) := do c MethodRecoverWallet "" (any.Slice [any.Str walletName; any.Str mnemonic; any.Str password]) reply_nil in
  Ret err.

Definition client_BuildUnsafeTransaction (c : client) (walletName : string) (payments : slice Payment.t) (coins : slice Coin.t) (feeTarget : Z) (password : string)
  : prog (string * option error) :=
  let* '(resp, err) :=
    do c MethodBuildUnsafeTransaction walletName (build_params payments coins feeTarget password)
       (reply_ptr (zero : string)) in
  match err with
  | Some err => Ret ("", Some err)
  | None => Ret (resp, None)
  end.

Definition client_PayInCoinJoin (c : client) (walletName : string) (address : string) (amount : Z) (password : string)
  : prog (string * option error) :=
  let* '(resp, err) :=
    do c MethodPayInCoinJoin walletName (any.Slice [any.Str address; any.Int amount; any.Str password])
       (reply_ptr (zero : string)) in
  match err with
  | Some err => Ret ("", Some err)
  | None => Ret (resp, None)
  end.

Definition client_ListPaymentsInCoinJoin (c : client) (walletName : string)
  : prog (slice ListPaymentsInCoinJoinResponseItem.t * option error) :=
  let* '(resp, err) :=
    do c MethodListPaymentsInCoinJoin walletName any.Nil
       (reply_ptr (zero : slice ListPaymentsInCoinJoinResponseItem.t)) in
  match err with
  | Some err => Ret (None, Some err)
  | None => Ret (resp, None)
  end.

Definition client_CancelPaymentInCoinJoin (c : client) (walletName : string) (paymentID : string)
  : prog (option error) :=
  let* '(_, err) := do c MethodCancelPaymentInCoinJoin walletName (any.Slice [any.Str paymentID]) reply_nil in
  Ret err.

Definition client_CancelTransaction (c : client) (walletName : string) (txID : string) (password : string)
  : prog (string * option error) :=
  let* '(resp, err) :=
    do c MethodCancelTransaction walletName (any.Slice [any.Str txID; any.Str password])
       (reply_ptr (zero : string)) in
  match err with
  | Some err => Ret ("", Some err)
  | None => Ret (resp, None)
  end.

Definition client_SpeedUpTransaction (c : client) (walletName : string) (txID : string) (password : string)
  : prog (string * option error) :=
  let* '(resp, err) :=
    do c MethodSpeedUpTransaction walletName (any.Slice [any.Str txID; any.Str password])
       (reply_ptr (zero : string)) in
  match err with
  | Some err => Ret ("", Some err)
  | None => Ret (resp, None)
  end.

(** ** The [Client] interface *)

(** The methods that return a payload and an error, by payload type. *)
Inductive payload_method : Type -> Type :=
| GetStatus : payload_method (GetStatusResponse.t)
| CreateWallet (walletName : string) (password : string) : payload_method (string)
| ListCoins (walletName : string) : payload_method (slice ListCoinsResponse.t)
| ListUnspentCoins (walletName : string) : payload_method (slice ListCoinsResponse.t)
| GetWalletInfo (walletName : string) : payload_method (GetWalletInfoResponse.t)
| GetNewAddress (walletName : string) (label : string) : payload_method (GetNewAddressResponse.t)
| Send (walletName : string) (payments : slice Payment.t) (coins : slice Coin.t) (feeTarget : Z) (password : string) : payload_method (SendResponse.t)
| Build (walletName : string) (payments : slice Payment.t) (coins : slice Coin.t) (feeTarget : Z) (password : string) : payload_method (string)
| Broadcast (walletName : string) (hex : string) : payload_method (string)
| GetHistory (walletName : string) : payload_method (slice Transaction.t)
| ListKeys (walletName : string) : payload_method (slice GeneratedKey.t)
| GetFeeRates : payload_method (GetFeeRatesResponse)
| ListWallets : payload_method (slice ListWalletsResponseItem.t)
| BuildUnsafeTransaction (walletName : string) (payments : slice Payment.t) (coins : slice Coin.t) (feeTarget : Z) (password : string) : payload_method (string)
| PayInCoinJoin (walletName : string) (address : string) (amount : Z) (password : string) : payload_method (string)
| ListPaymentsInCoinJoin (walletName : string) : payload_method (slice ListPaymentsInCoinJoinResponseItem.t)
| CancelTransaction (walletName : string) (txID : string) (password : string) : payload_method (string)
| SpeedUpTransaction (walletName : string) (txID : string) (password : string) : payload_method (string).

(** The methods that return an error only. *)
Inductive plain_method : Type :=
| LoadWallet (walletName : string)
| StartCoinJoin (walletName : string) (password : string) (stopWhenAllMixed : bool) (overridePlebStop : bool)
| StartCoinJoinSweep (walletName : string) (password : string) (outputWalletName : string)
| StopCoinJoin (walletName : string)
| Stop
| ExcludeFromCoinJoin (walletName : string) (txID : string) (index : Z) (exclude : bool)
| RecoverWallet (walletName : string) (mnemonic : string) (password : string)
| CancelPaymentInCoinJoin (walletName : string) (paymentID : string).

(** A method of the interface, by what it returns. *)
Inductive method : Type -> Type :=
| IsWasabiWalletUp : method bool
| Payload (T : Type) (m : payload_method T) : method (T * option error)
| Plain (m : plain_method) : method (option error).

Definition invoke_payload (c : client) (T : Type) (m : payload_method T)
  : prog (T * option error) :=
  match m with
  | GetStatus => client_GetStatus c
  | CreateWallet walletName password => client_CreateWallet c walletName password
  | ListCoins walletName => client_ListCoins c walletName
  | ListUnspentCoins walletName => client_ListUnspentCoins c walletName
  | GetWalletInfo walletName => client_GetWalletInfo c walletName
  | GetNewAddress walletName label => client_GetNewAddress c walletName label
  | Send walletName payments coins feeTarget password => client_Send c walletName payments coins feeTarget password
  | Build walletName payments coins feeTarget password => client_Build c walletName payments coins feeTarget password
  | Broadcast walletName hex => client_Broadcast c walletName hex
  | GetHistory walletName => client_GetHistory c walletName
  | ListKeys walletName => client_ListKeys c walletName
  | GetFeeRates => client_GetFeeRates c
  | ListWallets => client_ListWallets c
  | BuildUnsafeTransaction walletName payments coins feeTarget password => client_BuildUnsafeTransaction c walletName payments coins feeTarget password
  | PayInCoinJoin walletName address amount password => client_PayInCoinJoin c walletName address amount password
  | ListPaymentsInCoinJoin walletName => client_ListPaymentsInCoinJoin c walletName
  | CancelTransaction walletName txID password => client_CancelTransaction c walletName txID password
  | SpeedUpTransaction walletName txID password => client_SpeedUpTransaction c walletName txID password
  end.

Definition invoke_plain (c : client) (m : plain_method) : prog (option error) :=
  match m with
  | LoadWallet walletName => client_LoadWallet c walletName
  | StartCoinJoin walletName password stopWhenAllMixed overridePlebStop => client_StartCoinJoin c walletName password stopWhenAllMixed overridePlebStop
  | StartCoinJoinSweep walletName password outputWalletName => client_StartCoinJoinSweep c walletName password outputWalletName
  | StopCoinJoin walletName => client_StopCoinJoin c walletName
  | Stop => client_Stop c
  | ExcludeFromCoinJoin walletName txID index exclude => client_ExcludeFromCoinJoin c walletName txID index exclude
  | RecoverWallet walletName mnemonic password => client_RecoverWallet c walletName mnemonic password
  | CancelPaymentInCoinJoin walletName paymentID => client_CancelPaymentInCoinJoin c walletName paymentID
  end.

Definition invoke (c : client) (R : Type) (m : method R) : prog R :=
  match m with
  | IsWasabiWalletUp => client_IsWasabiWalletUp c
  | Payload m => invoke_payload c m
  | Plain m => invoke_plain c m
  end.

(** The error a method returned ([IsWasabiWalletUp] has none). *)
Definition err_of (R : Type) (m : method R) : R -> option error :=
  match m with
  | IsWasabiWalletUp => fun _ => None
  | Payload _ => fun r => r.2
  | Plain _ => fun r => r
  end.

(** The zero value of the payload type of a method. *)
Definition zero_of (T : Type) (m : payload_method T) : T :=
  match m with
  | GetStatus => zero
  | CreateWallet _ _ => zero
  | ListCoins _ => zero
  | ListUnspentCoins _ => zero
  | GetWalletInfo _ => zero
  | GetNewAddress _ _ => zero
  | Send _ _ _ _ _ => zero
  | Build _ _ _ _ _ => zero
  | Broadcast _ _ => zero
  | GetHistory _ => zero
  | ListKeys _ => zero
  | GetFeeRates => zero
  | ListWallets => zero
  | BuildUnsafeTransaction _ _ _ _ _ => zero
  | PayInCoinJoin _ _ _ _ => zero
  | ListPaymentsInCoinJoin _ => zero
  | CancelTransaction _ _ _ => zero
  | SpeedUpTransaction _ _ _ => zero
  end.

(** ** Running a program against an environment *)

(** An event is an effect together with the answer it got. *)
Inductive event := Event (X : Type) (e : effect X) (x : X).

Definition trace := list event.

(** The environment (random source, JSON codec, network, daemon): it
    answers every effect, and may look at everything that happened
    before. *)
Definition env := forall X : Type, trace -> effect X -> X.

(** [exec h p t] runs [p] after the events [t]: the value returned and
    the events, old and new. *)
Fixpoint exec (A : Type) (h : env) (p : prog A) (t : trace) : A * trace :=
  match p with
  | Ret a => (a, t)
  | Vis e k => let x := h _ t e in exec h (k x) (t ++ [Event e x])
  end.

Definition run (A : Type) (h : env) (p : prog A) : A * trace := exec h p [].

(** *** What a trace shows *)

(** The URLs for which [http.NewRequest] was asked to build a request. *)
Definition target (ev : event) : option string :=
  match ev with
  | Event (http_NewRequest _ url _) _ => Some url
  | Event _ _ => None
  end.

(** The requests handed to [httpClient.Do]. *)
Definition sent (ev : event) : option Request.t :=
  match ev with
  | Event (httpClient_Do _ req) _ => Some req
  | Event _ _ => None
  end.

(** The responses [httpClient.Do] returned. *)
Definition received (ev : event) : option Response.t :=
  match ev with
  | Event e x =>
      match e in effect X return X -> option Response.t with
      | httpClient_Do _ _ =>
          fun x => match x with inl resp => Some resp | inr _ => None end
      | _ => fun _ => None
      end x
  end.

(** The bodies given to the envelope decoder. *)
Definition decoded (ev : event) : option string :=
  match ev with
  | Event (json_Decode body) _ => Some body
  | Event _ _ => None
  end.

(** The envelopes the decoder produced. *)
Definition envelope (ev : event) : option clientResponse.t :=
  match ev with
  | Event e x =>
      match e in effect X return X -> option clientResponse.t with
      | json_Decode _ =>
          fun x => match x with inl c => Some c | inr _ => None end
      | _ => fun _ => None
      end x
  end.

(** The decodings of an [error] member: the raw text, the [RPCError] the
    target holds afterwards and the error of the decoding. *)
Definition error_decoding (ev : event)
  : option (RawMessage * RPCError * option error) :=
  match ev with
  | Event e x =>
      match e in effect X
            return X -> option (RawMessage * RPCError * option error) with
      | json_Unmarshal_RPCError data _ => fun x => Some (data, x.1, x.2)
      | _ => fun _ => None
      end x
  end.

(** The raw [result] members that were unmarshalled into the reply. *)
Definition result_decoding (ev : event) : option RawMessage :=
  match ev with
  | Event (json_Unmarshal data _) _ => Some data
  | Event (json_Unmarshal_nil data) _ => Some data
  | Event _ _ => None
  end.

Definition targets (t : trace) : list string := omap target t.
Definition requests (t : trace) : list Request.t := omap sent t.
Definition responses (t : trace) : list Response.t := omap received t.
Definition decoded_bodies (t : trace) : list string := omap decoded t.
Definition envelopes (t : trace) : list clientResponse.t := omap envelope t.
Definition error_decodings (t : trace)
  : list (RawMessage * RPCError * option error) := omap error_decoding t.
Definition result_decodings (t : trace) : list RawMessage :=
  omap result_decoding t.

(** ** Several callers on one client *)

(** How an effect bears on the mutex and on the transport. *)
Inductive effect_kind := KLock | KUnlock | KSend | KOther.

Definition kind (X : Type) (e : effect X) : effect_kind :=
  match e with
  | mutex_Lock => KLock
  | mutex_Unlock => KUnlock
  | httpClient_Do _ _ => KSend
  | _ => KOther
  end.

(** A goroutine inside a method of the client: running, or waiting in
    [httpClient.Do] for the response to the request it has sent. *)
Inductive thread :=
| Running (R : Type) (p : prog R)
| InFlight (R : Type) (hc : http_Client) (req : Request.t)
    (k : result Response.t -> prog R).

(** The client's mutex and the goroutines that share the client. *)
Record pool := { locked : bool; threads : list thread }.

Definition pool_init : pool := {| locked := false; threads := [] |}.

(** One answer for each effect. *)
Definition answers := forall X : Type, effect X -> X.

(** One step of a goroutine, or [None] when it cannot move: it has
    returned, it is blocked in [Lock] on a mutex that is held, or it has
    crashed in [Unlock] on a mutex that is not. Sending the request and
    getting the response are two steps. *)
Definition advance (h : answers) (held : bool) (th : thread)
  : option (bool * thread) :=
  match th with
  | Running (Ret _) => None
  | Running (Vis e k) =>
      match e in effect X return (X -> prog _) -> option (bool * thread) with
      | mutex_Lock =>
          fun k => if held then None else Some (true, Running (k tt))
      | mutex_Unlock =>
          fun k => if held then Some (false, Running (k tt)) else None
      | httpClient_Do hc req => fun k => Some (held, InFlight hc req k)
      | e' => fun k => Some (held, Running (k (h _ e')))
      end k
  | InFlight hc req k => Some (held, Running (k (h _ (httpClient_Do hc req))))
  end.

(** What the scheduler may do: let a new caller enter a method of the
    client, or let goroutine [i] take one step. *)
Inductive action :=
| Spawn (R : Type) (m : method R)
| Advance (i : nat) (h : answers).

Definition pool_step (c : client) (a : action) (st : pool) : option pool :=
  match a with
  | Spawn m =>
      Some {| locked := locked st;
              threads := threads st ++ [Running (invoke c m)] |}
  | Advance i h =>
      match threads st !! i with
      | None => None
      | Some th =>
          match advance h (locked st) th with
          | None => None
          | Some (held, th') =>
              Some {| locked := held; threads := <[i := th']> (threads st) |}
          end
      end
  end.

Fixpoint pool_steps (c : client) (acts : list action) (st : pool)
  : option pool :=
  match acts with
  | [] => Some st
  | a :: acts' =>
      match pool_step c a st with
      | None => None
      | Some st' => pool_steps c acts' st'
      end
  end.

(** The pools that some schedule reaches from the empty pool. *)
Definition reachable (c : client) (st : pool) : Prop :=
  exists acts, pool_steps c acts pool_init = Some st.

Definition is_in_flight (th : thread) : bool :=
  match th with
  | InFlight _ _ _ => true
  | Running _ => false
  end.

(** The number of requests that were sent and not yet answered. *)
Fixpoint in_flight (ths : list thread) : nat :=
  match ths with
  | [] => 0%nat
  | th :: ths' => ((if is_in_flight th then 1 else 0) + in_flight ths')%nat
  end.

(** ** Environments for examples *)

(** A daemon that answers every request with the given status code; the
    codec decodes the body to [envelope]; decoding an [error] member
    gives [rpc]; decoding a [result] member leaves the target as it is
    and gives [res]. *)
Definition daemon (status : Z) (envelope : result clientResponse.t)
    (rpc : RPCError * option error) (res : option error) : env :=
  fun X _ e =>
    match e in effect X return X with
    | rand_Int _ => inl 4
    | json_Marshal _ => inl "{}"
    | http_NewRequest _ _ _ => None
    | mutex_Lock => tt
    | mutex_Unlock => tt
    | httpClient_Do _ _ =>
        inl {| Response.StatusCode := status; Response.Body := "{}" |}
    | json_Decode _ => envelope
    | json_Unmarshal_RPCError _ _ => rpc
    | json_Unmarshal _ v => (v, res)
    | json_Unmarshal_nil _ => errorString "json: Unmarshal(nil)"
    | Body_Close _ => tt
    | net_Dial _ _ => inl 0%nat
    | Conn_Close _ => tt
    end.

(** A network on which every round trip fails. *)
Definition unreachable : env :=
  fun X _ e =>
    match e in effect X return X with
    | rand_Int _ => inl 4
    | json_Marshal _ => inl "{}"
    | http_NewRequest _ _ _ => None
    | mutex_Lock => tt
    | mutex_Unlock => tt
    | httpClient_Do _ _ => inr (errorString "connection refused")
    | json_Decode _ => inr (errorString "EOF")
    | json_Unmarshal_RPCError _ v => (v, None)
    | json_Unmarshal _ v => (v, None)
    | json_Unmarshal_nil _ => errorString "json: Unmarshal(nil)"
    | Body_Close _ => tt
    | net_Dial _ _ => inr (errorString "connection refused")
    | Conn_Close _ => tt
    end.

(** ** Predicates over all environments *)

(** [always p t Q]: whatever the environment answers, running [p] after
    the events [t] ends with a value and a trace that satisfy [Q]. *)
Fixpoint always (A : Type) (p : prog A) (t : trace) (Q : A -> trace -> Prop)
  : Prop :=
  match p with
  | Ret a => Q a t
  | Vis e k => forall x, always (k x) (t ++ [Event e x]) Q
  end.

(** The environment that remembers the events [t0]. *)
Definition after (t0 : trace) (h : env) : env := fun X t e => h X (t0 ++ t) e.

(** [locking held p]: started by a goroutine that holds the mutex or does
    not ([held]), [p] locks only while it does not hold the mutex, sends
    and unlocks only while it does, and returns without it. *)
Fixpoint locking (R : Type) (held : bool) (p : prog R) : Prop :=
  match p with
  | Ret _ => held = false
  | Vis e k =>
      match kind e with
      | KLock => held = false /\ forall x, locking true (k x)
      | KUnlock => held = true /\ forall x, locking false (k x)
      | KSend => held = true /\ forall x, locking true (k x)
      | KOther => forall x, locking held (k x)
      end
  end.

(** A goroutine keeps the discipline; one that waits for a response
    holds the mutex. *)
Definition thread_ok (owner : bool) (th : thread) : Prop :=
  match th with
  | Running p => locking owner p
  | InFlight _ _ k => owner = true /\ forall r, locking true (k r)
  end.

Definition owner_at (o : option nat) (i : nat) : bool :=
  bool_decide (o = Some i).

(** The invariant of the pool: the mutex is held exactly when some
    goroutine [o] owns it, and every goroutine keeps the discipline. *)
Record pool_inv (st : pool) (o : option nat) : Prop := {
  inv_locked : locked st = bool_decide (is_Some o);
  inv_owner : forall i, o = Some i -> is_Some (threads st !! i);
  inv_threads : forall i th,
    threads st !! i = Some th -> thread_ok (owner_at o i) th
}.

(** ** Notions of the specification *)

(** The path segment of a call: the wallet a wallet-scoped method works
    on, and nothing for a method that is not tied to a loaded wallet
    (status, wallet creation, loading and recovery, the wallet list, the
    fee rates, shutdown). *)
Definition wallet_segment (R : Type) (m : method R) : string :=
  match m with
  | IsWasabiWalletUp => ""
  | Payload m =>
      match m with
      | GetStatus | CreateWallet _ _ | GetFeeRates | ListWallets => ""
      | ListCoins w | ListUnspentCoins w | GetWalletInfo w
      | GetNewAddress w _ | Send w _ _ _ _ | Build w _ _ _ _ | Broadcast w _
      | GetHistory w | ListKeys w | BuildUnsafeTransaction w _ _ _ _
      | PayInCoinJoin w _ _ _ | ListPaymentsInCoinJoin w
      | CancelTransaction w _ _ | SpeedUpTransaction w _ _ => w
      end
  | Plain m =>
      match m with
      | LoadWallet _ | Stop | RecoverWallet _ _ _ => ""
      | StartCoinJoin w _ _ _ | StartCoinJoinSweep w _ _ | StopCoinJoin w
      | ExcludeFromCoinJoin w _ _ _ | CancelPaymentInCoinJoin w _ => w
      end
  end.

(** The payload of a result is the zero value of its type (nothing to
    say for a method without payload). *)
Definition payload_is_zero (R : Type) (m : method R) : R -> Prop :=
  match m with
  | Payload m => fun r => r.1 = zero_of m
  | _ => fun _ => True
  end.

(** The value of the [Authorization] header for a user and a password. *)
Definition basic_auth (user password : string) : string :=
  "Basic " +:+ base64.EncodeToString (user +:+ ":" +:+ password).

(** ** Examples: configurations, clients, daemons, schedules *)

Definition cfg_default_port : Config :=
  {| Host := "127.0.0.1"; Port := 0; CustomHeaders := None;
     Transport := None; RpcUser := ""; RpcPassword := "" |}.

Definition cfg_lone_user : Config :=
  {| Host := "127.0.0.1"; Port := 0; CustomHeaders := None;
     Transport := None; RpcUser := "alice"; RpcPassword := "" |}.

Definition cfg_lone_password : Config :=
  {| Host := "127.0.0.1"; Port := 0; CustomHeaders := None;
     Transport := None; RpcUser := ""; RpcPassword := "secret" |}.

Definition cfg_reserved_header : Config :=
  {| Host := "127.0.0.1"; Port := 0;
     CustomHeaders := Some {["Authorization" := "Bearer token"]};
     Transport := None; RpcUser := ""; RpcPassword := "" |}.

Definition cfg_credentials : Config :=
  {| Host := "127.0.0.1"; Port := 37128; CustomHeaders := None;
     Transport := None; RpcUser := "alice"; RpcPassword := "secret" |}.

Definition cfg_credentials_headers : Config :=
  {| Host := "127.0.0.1"; Port := 37128;
     CustomHeaders := Some {["X-Trace" := "1"]};
     Transport := None; RpcUser := "alice"; RpcPassword := "secret" |}.

Definition cfg_credentials_default_port : Config :=
  {| Host := "127.0.0.1"; Port := 0; CustomHeaders := None;
     Transport := None; RpcUser := "alice"; RpcPassword := "secret" |}.

Definition local_client : client :=
  {| httpClient := http_DefaultClient; host := "127.0.0.1"; port := 37128;
     headers := None |}.

(** The envelope whose [result] and [error] members are both null. *)
Definition envelope_null : clientResponse.t :=
  {| clientResponse.Version := "2.0"; clientResponse.Result := None;
     clientResponse.Error := None |}.

(** An envelope that carries both members, each an empty object. *)
Definition envelope_both : clientResponse.t :=
  {| clientResponse.Version := "2.0";
     clientResponse.Result := Some "{}";
     clientResponse.Error := Some "{}" |}.

(** An envelope whose [error] member is a number, not an object. *)
Definition envelope_number_error : clientResponse.t :=
  {| clientResponse.Version := "2.0"; clientResponse.Result := None;
     clientResponse.Error := Some "42" |}.

Definition daemon_null : env :=
  daemon 200 (inl envelope_null) (zero, None) None.

Definition daemon_both : env :=
  daemon 200 (inl envelope_both) (zero, None) None.

Definition daemon_number_error : env :=
  daemon 200 (inl envelope_number_error)
    (zero, Some (errorString "json: cannot unmarshal number"))
    None.

Definition daemon_not_found : env :=
  daemon 404 (inr (errorString "EOF")) (zero, None) None.

(** Answers that do not depend on the past. *)
Definition steady (h : env) : answers := fun X e => h X [] e.

(** Two callers on one client: the first gets as far as sending its
    request, the second gets as far as [Lock]. *)
Definition two_callers : list action :=
  let h := steady daemon_null in
  [Spawn (Payload GetStatus); Spawn (Plain Stop);
   Advance 0 h; Advance 1 h; Advance 0 h; Advance 1 h;
   Advance 0 h; Advance 1 h; Advance 0 h; Advance 0 h].

Definition pool_two_callers : pool :=
  match pool_steps local_client two_callers pool_init with
  | Some st => st
  | None => pool_init
  end.

(** ** More of what a trace shows *)

(** The kind of call an event is. Unmarshalling the [result] member is
    one kind, whether the reply is nil or not. *)
Inductive tag :=
| TRand | TMarshal | TNewRequest | TLock | TUnlock | TDo | TDecode
| TUnmarshalError | TUnmarshal | TClose | TDial | TConnClose.

Definition tag_of (ev : event) : tag :=
  match ev with
  | Event e _ =>
      match e with
      | rand_Int _ => TRand
      | json_Marshal _ => TMarshal
      | http_NewRequest _ _ _ => TNewRequest
      | mutex_Lock => TLock
      | mutex_Unlock => TUnlock
      | httpClient_Do _ _ => TDo
      | json_Decode _ => TDecode
      | json_Unmarshal_RPCError _ _ => TUnmarshalError
      | json_Unmarshal _ _ => TUnmarshal
      | json_Unmarshal_nil _ => TUnmarshal
      | Body_Close _ => TClose
      | net_Dial _ _ => TDial
      | Conn_Close _ => TConnClose
      end
  end.

Definition tags (t : trace) : list tag := map tag_of t.

(** The bounds given to [rand.Int] and what it answered. *)
Definition drawn (ev : event) : option (Z * result Z) :=
  match ev with
  | Event e x =>
      match e in effect X return X -> option (Z * result Z) with
      | rand_Int max => fun x => Some (max, x)
      | _ => fun _ => None
      end x
  end.

(** The envelopes given to [json.Marshal] and what it answered. *)
Definition marshalled (ev : event)
  : option (clientRequest.t * result string) :=
  match ev with
  | Event e x =>
      match e in effect X
            return X -> option (clientRequest.t * result string) with
      | json_Marshal c => fun x => Some (c, x)
      | _ => fun _ => None
      end x
  end.

(** The errors of [http.NewRequest]. *)
Definition request_error (ev : event) : option error :=
  match ev with
  | Event e x =>
      match e in effect X return X -> option error with
      | http_NewRequest _ _ _ => fun x => x
      | _ => fun _ => None
      end x
  end.

(** The errors of [httpClient.Do]. *)
Definition transport_error (ev : event) : option error :=
  match ev with
  | Event e x =>
      match e in effect X return X -> option error with
      | httpClient_Do _ _ =>
          fun x => match x with inl _ => None | inr err => Some err end
      | _ => fun _ => None
      end x
  end.

(** The errors of the JSON decoder on the body and on the [result]
    member. *)
Definition codec_error (ev : event) : option error :=
  match ev with
  | Event e x =>
      match e in effect X return X -> option error with
      | json_Decode _ =>
          fun x => match x with inl _ => None | inr err => Some err end
      | json_Unmarshal _ _ => fun x => x.2
      | json_Unmarshal_nil _ => fun x => Some x
      | _ => fun _ => None
      end x
  end.

(** The bodies that were closed. *)
Definition closed (ev : event) : option string :=
  match ev with
  | Event (Body_Close body) _ => Some body
  | Event _ _ => None
  end.

(** The addresses dialled and what [net.Dial] answered. *)
Definition dialled (ev : event) : option (string * string * result Conn) :=
  match ev with
  | Event e x =>
      match e in effect X
            return X -> option (string * string * result Conn) with
      | net_Dial network address => fun x => Some (network, address, x)
      | _ => fun _ => None
      end x
  end.

(** The connections that were closed. *)
Definition hung_up (ev : event) : option Conn :=
  match ev with
  | Event (Conn_Close conn) _ => Some conn
  | Event _ _ => None
  end.

Definition draws (t : trace) : list (Z * result Z) := omap drawn t.
Definition marshallings (t : trace)
  : list (clientRequest.t * result string) := omap marshalled t.
Definition request_errors (t : trace) : list error := omap request_error t.
Definition transport_errors (t : trace) : list error :=
  omap transport_error t.
Definition codec_errors (t : trace) : list error := omap codec_error t.
Definition closed_bodies (t : trace) : list string := omap closed t.
Definition dials (t : trace) : list (string * string * result Conn) :=
  omap dialled t.
Definition hang_ups (t : trace) : list Conn := omap hung_up t.

(** The codec never answered with the package's sentinel, bare or
    wrapped: encoding/json has no reason to. *)
Definition honest_codec (t : trace) : Prop :=
  Forall (fun err => errors_Is_RPCErrNullResult err = false) (codec_errors t).

(** ** More notions for statements *)

(** A host that validation lets through. *)
Definition host_ok (s : string) : Prop :=
  s <> "" /\
  ~ In "/"%char (list_ascii_of_string s) /\
  ~ In ":"%char (list_ascii_of_string s).

(** Custom headers that validation lets through. *)
Definition headers_ok (m : gmap string string) : Prop :=
  forall k v, m !! k = Some v -> k <> "" /\ v <> "" /\ k <> "Authorization".

(** A goroutine that has returned from its method. *)
Definition is_finished (th : thread) : bool :=
  match th with
  | Running (Ret _) => true
  | _ => false
  end.

(** The goroutine is about to call [c.mutex.Lock()]. *)
Definition at_lock (th : thread) : bool :=
  match th with
  | Running (Vis e _) =>
      match kind e with
      | KLock => true
      | _ => false
      end
  | _ => false
  end.

(** How far one call of [do] gets with the address [url], read off its
    trace. Either the envelope could not be encoded (the draw of the id
    or [json.Marshal] failed) and no request was built; or
    [http.NewRequest] was called once, with [url], failed, and nothing
    was sent; or [http.NewRequest] was called once, with [url], and the
    one request handed to [httpClient.Do] has that address. *)
Definition requests_url (url : string) (t : trace) : Prop :=
  (targets t = [] /\ requests t = [] /\
   ((exists max err, draws t = [(max, inr err)]) \/
    (exists envelope err, marshallings t = [(envelope, inr err)]))) \/
  (targets t = [url] /\ requests t = [] /\
   exists err, request_errors t = [err]) \/
  (targets t = [url] /\ request_errors t = [] /\
   exists req, requests t = [req] /\ Request.URL req = url).

(** The sequences of steps of one call. A method of the pipeline draws
    the id, marshals the envelope and builds the request (and stops at
    the first of these that fails); then it locks, hands the request to
    the HTTP client and, with a response of status 200, decodes the body,
    perhaps unmarshals the [error] or the [result] member, and closes the
    body; it unlocks as its last step. [IsWasabiWalletUp] dials, and
    hangs up if it got through. *)
Definition call_shapes : list (list tag) :=
  [[TDial];
   [TDial; TConnClose];
   [TRand];
   [TRand; TMarshal];
   [TRand; TMarshal; TNewRequest];
   [TRand; TMarshal; TNewRequest; TLock; TDo; TUnlock];
   [TRand; TMarshal; TNewRequest; TLock; TDo; TDecode; TClose; TUnlock];
   [TRand; TMarshal; TNewRequest; TLock; TDo; TDecode; TUnmarshalError;
    TClose; TUnlock];
   [TRand; TMarshal; TNewRequest; TLock; TDo; TDecode; TUnmarshal;
    TClose; TUnlock]].

(** ** More examples *)

Definition cfg_two_bad_headers : list (string * string) :=
  [("", "x"); ("X-Trace", "")].

Definition daemon_result : env :=
  daemon 200
    (inl {| clientResponse.Version := "2.0";
            clientResponse.Result := Some "true";
            clientResponse.Error := None |})
    (zero, None) None.

Definition daemon_bad_result : env :=
  daemon 200
    (inl {| clientResponse.Version := "2.0";
            clientResponse.Result := Some "true";
            clientResponse.Error := None |})
    (zero, None) (Some (errorString "json: cannot unmarshal bool")).

(** A random source that is out of entropy. *)
Definition no_entropy : env :=
  fun X t e =>
    match e in effect X return X with
    | rand_Int _ => inr (errorString "EOF")
    | e' => @daemon_null _ t e'
    end.

(** A client whose host makes [http.NewRequest] fail. *)
Definition bad_url : env :=
  fun X t e =>
    match e in effect X return X with
    | http_NewRequest _ _ _ => Some (errorString "invalid URL")
    | e' => @daemon_null _ t e'
    end.

Definition header_client : client :=
  {| httpClient := http_DefaultClient; host := "127.0.0.1"; port := 37128;
     headers := Some {["X-Trace" := "1"]} |}.

(** One caller that has run [GetStatus] to its end. *)
Definition one_caller_done : list action :=
  let h := steady daemon_null in
  [Spawn (Payload GetStatus);
   Advance 0 h; Advance 0 h; Advance 0 h; Advance 0 h; Advance 0 h;
   Advance 0 h; Advance 0 h; Advance 0 h; Advance 0 h].

Definition pool_one_caller_done : pool :=
  match pool_steps local_client one_caller_done pool_init with
  | Some st => st
  | None => pool_init
  end.

(** * Theorems *)

(** ** Sanity checks of the library models *)

Example base64_rfc4648_a : base64.EncodeToString "foobar" = "Zm9vYmFy".
Proof. reflexivity. Qed.
Example base64_rfc4648_b : base64.EncodeToString "fooba" = "Zm9vYmE=".
Proof. reflexivity. Qed.
Example base64_rfc4648_c : base64.EncodeToString "foob" = "Zm9vYg==".
Proof. reflexivity. Qed.
Example base64_rfc7617 :
  base64.EncodeToString "Aladdin:open sesame" = "QWxhZGRpbjpvcGVuIHNlc2FtZQ==".
Proof. reflexivity. Qed.

(** ** Configuration validation *)

Lemma nonempty_true (s : string) : nonempty s = true <-> s <> "".
Proof.
  unfold nonempty. rewrite negb_true_iff. split.
  - intros H ->. discriminate.
  - intros H. apply String.eqb_neq. exact H.
Qed.

Lemma nonempty_false (s : string) : nonempty s = false <-> s = "".
Proof.
  unfold nonempty. rewrite negb_false_iff. apply String.eqb_eq.
Qed.

Lemma IndexByte_In (chars : string) (c : ascii) :
  strings.IndexByte chars c = true <-> In c (list_ascii_of_string chars).
Proof.
  induction chars as [|d chars IH]; simpl.
  - split; [discriminate | tauto].
  - rewrite orb_true_iff, IH, Ascii.eqb_eq. intuition congruence.
Qed.

(** [ContainsAny] holds exactly when a byte of [s] is one of [chars]. *)
Lemma ContainsAny_spec (s chars : string) :
  strings.ContainsAny s chars = true <->
  exists c, In c (list_ascii_of_string s) /\ In c (list_ascii_of_string chars).
Proof.
  induction s as [|c s IH]; simpl.
  - split; [discriminate | intros (c & [] & _)].
  - rewrite orb_true_iff, IH, IndexByte_In. split.
    + intros [H | (d & Hd & Hc)]; eauto.
    + intros (d & [<- | Hd] & Hc); eauto.
Qed.

(** The loop over the custom headers stops with an error at the reserved
    key at the latest, in whatever order it visits the entries. *)
Lemma check_headers_Authorization (entries : list (string * string))
    (v : string) :
  In ("Authorization", v) entries -> check_headers entries <> None.
Proof.
  induction entries as [|[k w] rest IH]; simpl; [tauto |].
  intros [Heq | Hin].
  - inversion Heq; subst. simpl. destruct (String.eqb v ""); discriminate.
  - destruct (String.eqb k ""); [discriminate |].
    destruct (String.eqb w ""); [discriminate |].
    destruct (String.eqb k "Authorization"); [discriminate | auto].
Qed.

(** Whether the loop fails does not depend on the order of the entries. *)
Lemma check_headers_order (l1 l2 : list (string * string)) :
  Permutation l1 l2 ->
  (check_headers l1 = None <-> check_headers l2 = None).
Proof.
  induction 1 as [| [k v] l1 l2 _ IH | [k1 v1] [k2 v2] l | l1 l2 l3 _ IH1 _ IH2];
    simpl.
  - reflexivity.
  - destruct (String.eqb k ""); [reflexivity |].
    destruct (String.eqb v ""); [reflexivity |].
    destruct (String.eqb k "Authorization"); [reflexivity | exact IH].
  - destruct (String.eqb k1 ""), (String.eqb v1 ""),
      (String.eqb k1 "Authorization"), (String.eqb k2 ""),
      (String.eqb v2 ""), (String.eqb k2 "Authorization");
      split; intros H; try discriminate H; try reflexivity; exact H.
  - rewrite IH1. exact IH2.
Qed.

(** A host with a slash or a colon is refused, whatever the other fields
    hold. *)
Lemma Validate_rejects_host (c : Config) :
  In "/"%char (list_ascii_of_string (Host c)) \/
  In ":"%char (list_ascii_of_string (Host c)) ->
  (Validate c).2 <> None.
Proof.
  intros H. unfold Validate.
  destruct (String.eqb (Host c) ""); [discriminate |].
  assert (strings.ContainsAny (Host c) "/:" = true) as ->.
  { apply ContainsAny_spec.
    destruct H as [H | H]; eexists; split; try exact H; simpl; auto. }
  discriminate.
Qed.

(** With a port other than zero, a user without a password and a
    password without a user are refused. *)
Lemma Validate_rejects_lone_credential (c : Config) :
  Port c <> 0 ->
  (RpcUser c <> "" /\ RpcPassword c = "") \/
  (RpcUser c = "" /\ RpcPassword c <> "") ->
  (Validate c).2 <> None.
Proof.
  intros Hport Hcred. unfold Validate.
  destruct (String.eqb (Host c) ""); [discriminate |].
  destruct (strings.ContainsAny (Host c) "/:"); [discriminate |].
  destruct (Z.eqb_spec (Port c) 0) as [|_]; [contradiction |].
  destruct ((Port c <? 0) || (Port c >? 65535)); [discriminate |].
  destruct Hcred as [[Hu Hp] | [Hu Hp]].
  - apply nonempty_true in Hu. apply nonempty_false in Hp.
    rewrite Hu, Hp. discriminate.
  - apply nonempty_false in Hu. apply nonempty_true in Hp.
    rewrite Hu, Hp. discriminate.
Qed.

(** With a port other than zero, a custom header named [Authorization]
    is refused. *)
Lemma Validate_rejects_Authorization_header (c : Config)
    (m : gmap string string) :
  Port c <> 0 ->
  CustomHeaders c = Some m ->
  is_Some (m !! "Authorization") ->
  (Validate c).2 <> None.
Proof.
  intros Hport Hm [v Hv]. unfold Validate.
  destruct (String.eqb (Host c) ""); [discriminate |].
  destruct (strings.ContainsAny (Host c) "/:"); [discriminate |].
  destruct (Z.eqb_spec (Port c) 0) as [|_]; [contradiction |].
  destruct ((Port c <? 0) || (Port c >? 65535)); [discriminate |].
  destruct (nonempty (RpcUser c) && negb (nonempty (RpcPassword c)));
    [discriminate |].
  destruct (negb (nonempty (RpcUser c)) && nonempty (RpcPassword c));
    [discriminate |].
  rewrite Hm. simpl.
  apply check_headers_Authorization with (v := v).
  apply list_elem_of_In, elem_of_map_to_list. exact Hv.
Qed.

(** With port zero and a well-formed host, validation sets the default
    port and checks nothing else. *)
Lemma Validate_default_port_accepts (c : Config) :
  Host c <> "" ->
  strings.ContainsAny (Host c) "/:" = false ->
  Port c = 0 ->
  Validate c = (set_Port c 37128, None).
Proof.
  intros Hhost Hany Hport. unfold Validate.
  apply String.eqb_neq in Hhost. rewrite Hhost, Hany, Hport. reflexivity.
Qed.

(** C2 does not hold of the code: with [Port] zero and a well-formed
    host, validation accepts a user without password, a password without
    user, and a custom header named [Authorization]. *)
Theorem Validate_default_port_skips_checks :
  (Validate cfg_lone_user).2 = None /\
  (Validate cfg_lone_password).2 = None /\
  (Validate cfg_reserved_header).2 = None.
Proof. repeat split; vm_compute; reflexivity. Qed.

(** C3 does not hold of the code: with both credentials set, validation
    succeeds and leaves no [Authorization] entry when the caller supplied
    a map of custom headers (the map stays as it was), and when [Port] is
    zero (the map stays nil). *)
Theorem Validate_drops_credentials :
  (Validate cfg_credentials_headers).2 = None /\
  CustomHeaders (Validate cfg_credentials_headers).1
  = Some {["X-Trace" := "1"]} /\
  CustomHeaders (Validate cfg_credentials_headers).1
    ≫= (fun m => m !! "Authorization") = None /\
  (Validate cfg_credentials_default_port).2 = None /\
  CustomHeaders (Validate cfg_credentials_default_port).1 = None.
Proof. repeat split; vm_compute; reflexivity. Qed.

(** The case C3 describes and the code reaches: a valid host, a port in
    range other than zero, both credentials and no custom headers. *)
Lemma Validate_synthesizes_credentials (c : Config) :
  Host c <> "" -> strings.ContainsAny (Host c) "/:" = false ->
  1 <= Port c <= 65535 -> RpcUser c <> "" -> RpcPassword c <> "" ->
  CustomHeaders c = None ->
  Validate c =
    (set_CustomHeaders c
       (Some {["Authorization" := basic_auth (RpcUser c) (RpcPassword c)]}),
     None).
Proof.
  intros Hh Hany Hport Hu Hp Hm. unfold Validate, basic_auth.
  apply String.eqb_neq in Hh. apply nonempty_true in Hu, Hp.
  rewrite Hh, Hany, Hu, Hp, Hm. cbn [andb negb notnil].
  destruct (Z.eqb_spec (Port c) 0); [lia |].
  rewrite Z.gtb_ltb.
  destruct (Z.ltb_spec (Port c) 0); [lia |].
  destruct (Z.ltb_spec 65535 (Port c)); [lia |].
  reflexivity.
Qed.

Example Validate_credentials_example :
  CustomHeaders (Validate cfg_credentials).1
  = Some {["Authorization" := "Basic YWxpY2U6c2VjcmV0"]}.
Proof. vm_compute. reflexivity. Qed.

(** What validation changes: nothing but [Port] and [CustomHeaders].
    It writes 37128 into [Port] when the case of port zero runs, and at
    no other time; it installs a map with the [Authorization] entry when
    the case of the credentials runs, which needs that there was no map,
    and changes [CustomHeaders] at no other time. *)
Lemma Validate_frame (c : Config) :
  let c' := (Validate c).1 in
  let err := (Validate c).2 in
  (Host c' = Host c /\ Transport c' = Transport c /\
   RpcUser c' = RpcUser c /\ RpcPassword c' = RpcPassword c) /\
  (Host c <> "" -> strings.ContainsAny (Host c) "/:" = false -> Port c = 0 ->
   Port c' = 37128 /\ CustomHeaders c' = CustomHeaders c /\ err = None) /\
  (Port c' <> Port c -> Port c = 0 /\ Port c' = 37128) /\
  (Host c <> "" -> strings.ContainsAny (Host c) "/:" = false ->
   1 <= Port c <= 65535 -> RpcUser c <> "" -> RpcPassword c <> "" ->
   CustomHeaders c = None ->
   CustomHeaders c' =
     Some {["Authorization" := basic_auth (RpcUser c) (RpcPassword c)]} /\
   Port c' = Port c /\ err = None) /\
  (CustomHeaders c' <> CustomHeaders c ->
   RpcUser c <> "" /\ RpcPassword c <> "" /\ Port c' = Port c /\
   CustomHeaders c' =
     Some (<["Authorization" := basic_auth (RpcUser c) (RpcPassword c)]>
             (default ∅ (CustomHeaders c)))).
Proof.
  unfold Validate, basic_auth.
  destruct (String.eqb_spec (Host c) "") as [Hh | Hh].
  { cbn. repeat split; try congruence; tauto. }
  destruct (strings.ContainsAny (Host c) "/:") eqn:Hany.
  { cbn. repeat split; try congruence; tauto. }
  destruct (Z.eqb_spec (Port c) 0) as [Hp | Hp].
  { cbn. repeat split; try congruence; try tauto; lia. }
  rewrite Z.gtb_ltb.
  destruct (Z.ltb_spec (Port c) 0) as [Hlo | Hlo];
    [| destruct (Z.ltb_spec 65535 (Port c)) as [Hhi | Hhi]]; cbn [orb].
  1, 2: cbn; repeat split; try congruence; try tauto; lia.
  destruct (nonempty (RpcUser c)) eqn:Hu;
    destruct (nonempty (RpcPassword c)) eqn:Hpw; cbn [andb negb].
  all: try apply nonempty_true in Hu; try apply nonempty_false in Hu.
  all: try apply nonempty_true in Hpw; try apply nonempty_false in Hpw.
  all: destruct (CustomHeaders c) as [m|] eqn:Hm; cbn.
  all: repeat split; try congruence; try tauto.
Qed.

(** The branch of the credentials case that would write into a map
    of the caller never runs: when validation changes [CustomHeaders],
    there was no map. *)
Lemma Validate_writes_no_caller_map (c : Config) :
  CustomHeaders (Validate c).1 <> CustomHeaders c -> CustomHeaders c = None.
Proof.
  unfold Validate.
  repeat match goal with
         | |- context [if ?b then _ else _] => destruct b eqn:?
         end; cbn; try congruence.
  all: destruct (CustomHeaders c); [discriminate | reflexivity].
Qed.

Lemma Validate_keeps_caller_map (c : Config) :
  CustomHeaders c = None \/ CustomHeaders (Validate c).1 = CustomHeaders c.
Proof.
  destruct (decide (CustomHeaders (Validate c).1 = CustomHeaders c))
    as [Heq | Hne]; [right; exact Heq | left].
  apply Validate_writes_no_caller_map, Hne.
Qed.

(** C9 does not hold of the code in one clause: validation never writes
    the [Authorization] entry into a map of custom headers that the
    caller supplied. With both credentials set and a map supplied,
    validation succeeds and the map is as it was, without that entry
    (the case of the custom headers runs, and the case of the
    credentials after it does not); and whatever the configuration, a
    map that was there is left as it was. The other clauses hold: port
    zero becomes 37128, a map is installed when there was none, and no
    other field changes. *)
Theorem Validate_leaves_caller_map :
  let c := cfg_credentials_headers in
  (RpcUser c = "alice" /\ RpcPassword c = "secret" /\
   CustomHeaders c = Some {["X-Trace" := "1"]}) /\
  (Validate c).2 = None /\
  CustomHeaders (Validate c).1 = CustomHeaders c /\
  CustomHeaders (Validate c).1 ≫= (fun m => m !! "Authorization") = None /\
  (forall c', CustomHeaders c' = None \/
              CustomHeaders (Validate c').1 = CustomHeaders c') /\
  Port (Validate cfg_default_port).1 = 37128 /\
  CustomHeaders (Validate cfg_credentials).1
  = Some {["Authorization" := basic_auth "alice" "secret"]}.
Proof.
  cbv zeta. repeat split; try (vm_compute; reflexivity).
  apply Validate_keeps_caller_map.
Qed.

Example Validate_frame_default_port :
  Validate cfg_default_port = (set_Port cfg_default_port 37128, None).
Proof. reflexivity. Qed.

(** ** Programs and environments *)

Lemma exec_bind (A B : Type) (h : env) (p : prog A) (f : A -> prog B)
    (t : trace) :
  exec h (bind p f) t = let '(a, t') := exec h p t in exec h (f a) t'.
Proof.
  revert t. induction p as [a | X e k IH]; intros t; simpl.
  - reflexivity.
  - apply IH.
Qed.

(** Running after the events [t0] is running from scratch against the
    environment that remembers [t0]: the statements below, made for runs
    that start with no event, cover every later call as well. *)
Lemma exec_after (A : Type) (h : env) (p : prog A) (t0 t : trace) :
  exec h p (t0 ++ t) =
  let '(a, t') := exec (after t0 h) p t in (a, t0 ++ t').
Proof.
  revert t. induction p as [a | X e k IH]; intros t; simpl.
  - reflexivity.
  - unfold after at 2 3. rewrite <- IH, <- app_assoc. reflexivity.
Qed.

Lemma always_exec (A : Type) (p : prog A) (t : trace)
    (Q : A -> trace -> Prop) :
  always p t Q -> forall h, Q (exec h p t).1 (exec h p t).2.
Proof.
  revert t. induction p as [a | X e k IH]; intros t H h; simpl in *.
  - exact H.
  - apply IH, H.
Qed.

Lemma always_run (A : Type) (p : prog A) (Q : A -> trace -> Prop) :
  always p [] Q -> forall h, Q (run h p).1 (run h p).2.
Proof. apply always_exec. Qed.

Lemma always_bind (A B : Type) (p : prog A) (f : A -> prog B) (t : trace)
    (Q : B -> trace -> Prop) :
  always p t (fun a t' => always (f a) t' Q) -> always (bind p f) t Q.
Proof.
  revert t. induction p as [a | X e k IH]; intros t H; simpl in *.
  - exact H.
  - intros x. apply IH, H.
Qed.

Lemma always_mono (A : Type) (p : prog A) (t : trace)
    (Q Q' : A -> trace -> Prop) :
  always p t Q -> (forall a t', Q a t' -> Q' a t') -> always p t Q'.
Proof.
  revert t. induction p as [a | X e k IH]; intros t H HQ; simpl in *.
  - apply HQ, H.
  - intros x. eapply IH; [apply H | exact HQ].
Qed.

Lemma always_True (A : Type) (p : prog A) (t : trace) :
  always p t (fun _ _ => True).
Proof.
  revert t. induction p as [a | X e k IH]; intros t; cbn; auto.
Qed.

Lemma always_Vis (A X : Type) (e : effect X) (k : X -> prog A) (t : trace)
    (Q : A -> trace -> Prop) :
  (forall x, always (k x) (t ++ [Event e x]) Q) -> always (Vis e k) t Q.
Proof. intros H. exact H. Qed.

(** Symbolic execution: one case for each answer of the environment. *)
Ltac head_scrutinee p :=
  lazymatch p with
  | bind ?q _ => head_scrutinee q
  | match ?x with _ => _ end => x
  end.

Ltac answer :=
  lazymatch goal with
  | |- always (Ret _) _ _ => fail
  | |- always (Vis _ _) _ _ => apply always_Vis; intros ?
  | |- always ?p _ _ =>
      let x := head_scrutinee p in
      (tryif is_var x then destruct x else destruct x eqn:?); cbn [bind]
  end.

Ltac symbolic :=
  unfold do, encodeClientRequest, decodeClientResponse, perform;
  cbn [bind]; repeat answer; cbn [always].

Ltac members :=
  repeat match goal with
         | H : In _ [] |- _ => destruct H
         | H : In _ (_ :: _) |- _ => destruct H as [<- | H]
         | H : _ = _ \/ _ |- _ => destruct H as [<- | H]
         | H : False |- _ => destruct H
         | H : negb (errors_Is_RPCErrNullResult _) = _ |- _ =>
             cbn in H; try discriminate H
         end.

(** A wrapper is [do] followed by a choice of what to return. *)
Ltac via_do L :=
  apply always_bind; eapply always_mono;
  [apply L | intros [? [? |]] ? ?; cbn [always] ].

(** ** The pipeline [do] *)

Lemma set_headers_URL (h : gomap string) (req : Request.t) :
  Request.URL (set_headers h req) = Request.URL req.
Proof.
  unfold set_headers. destruct (notnil h); [| reflexivity].
  generalize (range h). intros l. revert req.
  induction l as [|[k v] l IH]; intros req; simpl; [reflexivity |].
  rewrite IH. reflexivity.
Qed.

Lemma status_ok (code : Z) :
  negb (code =? http_StatusOK) = false -> code = 200.
Proof.
  intros H. apply negb_false_iff, Z.eqb_eq in H. exact H.
Qed.

Lemma do_requests (T : Type) (c : client) (method : Method)
    (w : string) (in_ : any.t) (out : reply T) :
  always (do c method w in_ out) []
    (fun _ t =>
       let url := Sprintf_url (host c) (port c) w in
       Forall (fun u => u = url) (targets t) /\
       Forall (fun req => Request.URL req = url) (requests t) /\
       (length (requests t) <= 1)%nat).
Proof.
  symbolic.
  all: unfold targets, requests; cbn.
  all: repeat constructor; apply set_headers_URL.
Qed.

Lemma do_null_result (T : Type) (c : client) (method : Method)
    (w : string) (in_ : any.t) (out : reply T) :
  always (do c method w in_ out) []
    (fun r t =>
       forall e, In e (envelopes t) ->
         clientResponse.Result e = None -> clientResponse.Error e = None ->
         r = (contents out, None)).
Proof.
  symbolic.
  all: unfold envelopes; cbn; intros env Hin Hres Herr; members.
  all: try congruence.
Qed.

Lemma do_status (T : Type) (c : client) (method : Method)
    (w : string) (in_ : any.t) (out : reply T) :
  always (do c method w in_ out) []
    (fun r t =>
       forall resp, In resp (responses t) ->
         Response.StatusCode resp <> 200 ->
         r = (contents out,
              Some (errorString
                      ("http status " +:+ fmt.itoa (Response.StatusCode resp))))
         /\ decoded_bodies t = [] /\ length (requests t) = 1%nat).
Proof.
  symbolic.
  all: unfold responses, decoded_bodies, requests; cbn; intros resp Hin Hcode;
    members.
  all: try (exfalso; apply Hcode, status_ok; assumption).
  all: auto.
Qed.

Lemma do_remote_error (T : Type) (c : client) (method : Method)
    (w : string) (in_ : any.t) (out : reply T) :
  always (do c method w in_ out) []
    (fun r t =>
       forall e, In e (envelopes t) -> clientResponse.Error e <> None ->
         (exists rpc, r = (contents out, Some (rpcError rpc))) /\
         result_decodings t = []).
Proof.
  symbolic.
  all: unfold envelopes, result_decodings; cbn; intros env Hin Herr; members.
  all: try congruence.
  all: eauto.
Qed.

(** ** The decoder *)

Lemma decode_error_member (T : Type) (body : string) (out : reply T) :
  always (decodeClientResponse body out) []
    (fun r t =>
       forall c, In c (envelopes t) -> clientResponse.Error c <> None ->
         (exists rpc, r = (contents out, Some (rpcError rpc))) /\
         result_decodings t = []).
Proof.
  symbolic.
  all: unfold envelopes, result_decodings; cbn; intros env Hin Herr; members.
  all: try congruence.
  all: eauto.
Qed.

Lemma decode_error_shape (T : Type) (body : string) (out : reply T) :
  always (decodeClientResponse body out) []
    (fun r t =>
       forall c raw, In c (envelopes t) -> clientResponse.Error c = Some raw ->
         exists v oe,
           error_decodings t = [(raw, v, oe)] /\
           r.2 = Some (rpcError
                         match oe with
                         | Some _ => {| Code := -32000; Message := raw;
                                        Data := any.Nil |}
                         | None => v
                         end)).
Proof.
  symbolic.
  all: unfold envelopes, error_decodings; cbn; intros env raw Hin Herr; members.
  all: try congruence.
  all: match goal with
       | H1 : clientResponse.Error ?c = Some ?a,
         H2 : clientResponse.Error ?c = Some ?b |- _ =>
           rewrite H1 in H2; injection H2 as ->
       end.
  all: eexists _, _; split; reflexivity.
Qed.

(** C4: when the envelope of a response has a non-null [error] member,
    decoding gives its caller an RPC error, leaves the target of the reply
    as it was, and never unmarshals the [result] member, whatever that
    member holds. *)
Theorem error_member_wins (T : Type) (body : string) (out : reply T)
    (h : env) (c : clientResponse.t) :
  In c (envelopes (run h (decodeClientResponse body out)).2) ->
  clientResponse.Error c <> None ->
  (exists rpc,
     (run h (decodeClientResponse body out)).1
     = (contents out, Some (rpcError rpc))) /\
  result_decodings (run h (decodeClientResponse body out)).2 = [].
Proof.
  apply (always_run _ _ (decode_error_member body out) h).
Qed.

Lemma error_member_wins_witness :
  In envelope_both
    (envelopes (run daemon_both
                  (decodeClientResponse "{}" (reply_ptr "unchanged"))).2) /\
  clientResponse.Error envelope_both <> None /\
  (exists rpc,
     (run daemon_both (decodeClientResponse "{}" (reply_ptr "unchanged"))).1
     = ("unchanged", Some (rpcError rpc))) /\
  result_decodings
    (run daemon_both (decodeClientResponse "{}" (reply_ptr "unchanged"))).2
  = [].
Proof.
  assert (H1 : In envelope_both
                 (envelopes
                    (run daemon_both
                       (decodeClientResponse "{}" (reply_ptr "unchanged"))).2))
    by (vm_compute; left; reflexivity).
  assert (H2 : clientResponse.Error envelope_both <> None)
    by (vm_compute; discriminate).
  split; [exact H1 | split; [exact H2 |]].
  exact (error_member_wins "{}" (reply_ptr "unchanged") daemon_both
           envelope_both H1 H2).
Defined.

Lemma invoke_remote_error (c : client) (R : Type) (m : method R) :
  always (invoke c m) []
    (fun r t =>
       forall e, In e (envelopes t) -> clientResponse.Error e <> None ->
         (exists rpc, err_of m r = Some (rpcError rpc)) /\
         result_decodings t = []).
Proof.
  destruct m as [| T m | m]; cbn [invoke err_of].
  - unfold client_IsWasabiWalletUp, perform. cbn [bind]. repeat answer.
    all: cbn; intros env [].
  - destruct m; cbn [invoke_payload]; via_do do_remote_error;
      intros env Hin Herr;
      match goal with
      | H : forall e, In e _ -> _ |- _ =>
          destruct (H env Hin Herr) as [[rpc Hr] Hd]
      end;
      try discriminate Hr; injection Hr as _ ->; eauto.
  - destruct m; cbn [invoke_plain]; via_do do_remote_error;
      intros env Hin Herr;
      match goal with
      | H : forall e, In e _ -> _ |- _ =>
          destruct (H env Hin Herr) as [[rpc Hr] Hd]
      end;
      try discriminate Hr; injection Hr as _ ->; eauto.
Qed.

(** The same for a caller of the client: every method returns the RPC
    error, and the [result] member is never unmarshalled. *)
Lemma remote_error_reaches_caller (c : client) (R : Type) (m : method R)
    (h : env) (e : clientResponse.t) :
  In e (envelopes (run h (invoke c m)).2) ->
  clientResponse.Error e <> None ->
  (exists rpc, err_of m (run h (invoke c m)).1 = Some (rpcError rpc)) /\
  result_decodings (run h (invoke c m)).2 = [].
Proof.
  apply (always_run _ _ (invoke_remote_error c m) h).
Qed.

(** C5: when the [error] member of the envelope is there, it is decoded
    once into the structured shape. If that decoding fails, the decoder
    returns the generic server error, code -32000, whose message is the
    raw text of the member; if it succeeds, the decoder returns the
    structured error as decoded, code, message and data. *)
Theorem error_member_decoding (T : Type) (body : string) (out : reply T)
    (h : env) (c : clientResponse.t) (raw : RawMessage) :
  In c (envelopes (run h (decodeClientResponse body out)).2) ->
  clientResponse.Error c = Some raw ->
  exists v oe,
    error_decodings (run h (decodeClientResponse body out)).2
    = [(raw, v, oe)] /\
    (run h (decodeClientResponse body out)).1.2
    = Some (rpcError
              match oe with
              | Some _ => {| Code := -32000; Message := raw;
                             Data := any.Nil |}
              | None => v
              end).
Proof.
  revert c raw. apply (always_run _ _ (decode_error_shape body out) h).
Qed.

Lemma error_member_decoding_witness :
  In envelope_number_error
    (envelopes (run daemon_number_error
                  (decodeClientResponse "{}" reply_nil)).2) /\
  clientResponse.Error envelope_number_error = Some "42" /\
  exists v oe,
    error_decodings
      (run daemon_number_error (decodeClientResponse "{}" reply_nil)).2
    = [("42", v, oe)] /\
    (run daemon_number_error (decodeClientResponse "{}" reply_nil)).1.2
    = Some (rpcError
              match oe with
              | Some _ => {| Code := -32000; Message := "42";
                             Data := any.Nil |}
              | None => v
              end).
Proof.
  assert (H1 : In envelope_number_error
                 (envelopes
                    (run daemon_number_error
                       (decodeClientResponse "{}" reply_nil)).2))
    by (vm_compute; left; reflexivity).
  assert (H2 : clientResponse.Error envelope_number_error = Some "42")
    by reflexivity.
  split; [exact H1 | split; [exact H2 |]].
  exact (error_member_decoding "{}" reply_nil daemon_number_error
           envelope_number_error H1 H2).
Defined.

Example error_member_decodable :
  (run daemon_both (decodeClientResponse "{}" reply_nil)).1.2
  = Some (rpcError {| Code := 0; Message := ""; Data := any.Nil |}).
Proof. reflexivity. Qed.

Example error_member_undecodable :
  (run daemon_number_error (decodeClientResponse "{}" reply_nil)).1.2
  = Some (rpcError {| Code := -32000; Message := "42"; Data := any.Nil |}).
Proof. reflexivity. Qed.

(** ** The methods of the client *)

Lemma invoke_null_result (c : client) (R : Type) (m : method R) :
  always (invoke c m) []
    (fun r t =>
       forall e, In e (envelopes t) ->
         clientResponse.Result e = None -> clientResponse.Error e = None ->
         err_of m r = None /\ payload_is_zero m r).
Proof.
  destruct m as [| T m | m]; cbn [invoke err_of payload_is_zero].
  - unfold client_IsWasabiWalletUp, perform. cbn [bind]. repeat answer.
    all: cbn; intros env [].
  - destruct m; cbn [invoke_payload zero_of]; via_do do_null_result;
      intros env Hin Hres Herr;
      match goal with
      | H : forall e, In e _ -> _ |- _ => pose proof (H env Hin Hres Herr) as Hr
      end;
      try discriminate Hr; injection Hr as ->; split; reflexivity.
  - destruct m; cbn [invoke_plain]; via_do do_null_result;
      intros env Hin Hres Herr;
      match goal with
      | H : forall e, In e _ -> _ |- _ => pose proof (H env Hin Hres Herr) as Hr
      end;
      try discriminate Hr; (split; [reflexivity | exact I]).
Qed.

(** C1, as the code has it: when the decoded envelope of the response has
    a null [result] and a null [error], every method of the client,
    with or without payload, returns a nil error; a method with a
    payload returns the zero value of its payload type with it. *)
Theorem null_result_is_success (c : client) (R : Type) (m : method R)
    (h : env) (e : clientResponse.t) :
  In e (envelopes (run h (invoke c m)).2) ->
  clientResponse.Result e = None ->
  clientResponse.Error e = None ->
  err_of m (run h (invoke c m)).1 = None /\
  payload_is_zero m (run h (invoke c m)).1.
Proof.
  apply (always_run _ _ (invoke_null_result c m) h).
Qed.

Lemma null_result_is_success_witness :
  let m := Payload (ListCoins "savings") in
  In envelope_null (envelopes (run daemon_null (invoke local_client m)).2) /\
  clientResponse.Result envelope_null = None /\
  clientResponse.Error envelope_null = None /\
  err_of m (run daemon_null (invoke local_client m)).1 = None /\
  payload_is_zero m (run daemon_null (invoke local_client m)).1.
Proof.
  intros m.
  assert (H1 : In envelope_null
                 (envelopes (run daemon_null (invoke local_client m)).2))
    by (vm_compute; left; reflexivity).
  assert (H2 : clientResponse.Result envelope_null = None) by reflexivity.
  assert (H3 : clientResponse.Error envelope_null = None) by reflexivity.
  split; [exact H1 | split; [exact H2 | split; [exact H3 |]]].
  exact (null_result_is_success local_client m daemon_null
           envelope_null H1 H2 H3).
Defined.

(** A method without payload on the same response. *)
Example Stop_null_result :
  run daemon_null (invoke local_client (Plain Stop))
  = run daemon_null (client_Stop local_client) /\
  (run daemon_null (client_Stop local_client)).1 = None.
Proof. split; reflexivity. Qed.

(** C1 as stated fails: [GetStatus] returns a payload, the envelope of
    the response has a null [result] and a null [error], and the call
    returns no error. *)
Lemma GetStatus_null_result_no_error :
  envelopes (run daemon_null (invoke local_client (Payload GetStatus))).2
  = [envelope_null] /\
  clientResponse.Result envelope_null = None /\
  clientResponse.Error envelope_null = None /\
  (run daemon_null (invoke local_client (Payload GetStatus))).1.2 = None.
Proof. repeat split; reflexivity. Qed.

Lemma invoke_status (c : client) (R : Type) (m : method R) :
  always (invoke c m) []
    (fun r t =>
       forall resp, In resp (responses t) ->
         Response.StatusCode resp <> 200 ->
         err_of m r
         = Some (errorString
                   ("http status " +:+ fmt.itoa (Response.StatusCode resp)))
         /\ decoded_bodies t = [] /\ length (requests t) = 1%nat).
Proof.
  destruct m as [| T m | m]; cbn [invoke err_of].
  - unfold client_IsWasabiWalletUp, perform. cbn [bind]. repeat answer.
    all: cbn; intros resp [].
  - destruct m; cbn [invoke_payload]; via_do do_status;
      intros resp Hin Hcode;
      match goal with
      | H : forall r, In r _ -> _ |- _ =>
          destruct (H resp Hin Hcode) as (Hr & Hd & Hn)
      end;
      try discriminate Hr; injection Hr as _ ->; auto.
  - destruct m; cbn [invoke_plain]; via_do do_status;
      intros resp Hin Hcode;
      match goal with
      | H : forall r, In r _ -> _ |- _ =>
          destruct (H resp Hin Hcode) as (Hr & Hd & Hn)
      end;
      try discriminate Hr; injection Hr as _ ->; auto.
Qed.

(** C6: when the HTTP response to a call has a status other than 200,
    the call returns the error [http status N] with the status code
    received, no body is given to the decoder, and the call has sent
    exactly one request. *)
Theorem http_status_is_fatal (c : client) (R : Type) (m : method R)
    (h : env) (resp : Response.t) :
  In resp (responses (run h (invoke c m)).2) ->
  Response.StatusCode resp <> 200 ->
  err_of m (run h (invoke c m)).1
  = Some (errorString
            ("http status " +:+ fmt.itoa (Response.StatusCode resp))) /\
  decoded_bodies (run h (invoke c m)).2 = [] /\
  length (requests (run h (invoke c m)).2) = 1%nat.
Proof.
  apply (always_run _ _ (invoke_status c m) h).
Qed.

Lemma http_status_is_fatal_witness :
  let p := invoke local_client (Payload (ListCoins "savings")) in
  let resp := {| Response.StatusCode := 404; Response.Body := "{}" |} in
  In resp (responses (run daemon_not_found p).2) /\
  Response.StatusCode resp <> 200 /\
  (run daemon_not_found p).1.2 = Some (errorString "http status 404") /\
  decoded_bodies (run daemon_not_found p).2 = [] /\
  length (requests (run daemon_not_found p).2) = 1%nat.
Proof.
  intros p resp.
  assert (H1 : In resp (responses (run daemon_not_found p).2))
    by (vm_compute; left; reflexivity).
  assert (H2 : Response.StatusCode resp <> 200) by (vm_compute; discriminate).
  split; [exact H1 | split; [exact H2 |]].
  exact (http_status_is_fatal local_client (Payload (ListCoins "savings"))
           daemon_not_found resp H1 H2).
Defined.

Lemma invoke_requests (c : client) (R : Type) (m : method R) :
  always (invoke c m) []
    (fun _ t =>
       let url := Sprintf_url (host c) (port c) (wallet_segment m) in
       Forall (fun u => u = url) (targets t) /\
       Forall (fun req => Request.URL req = url) (requests t) /\
       (length (requests t) <= 1)%nat).
Proof.
  destruct m as [| T m | m]; cbn [invoke].
  - unfold client_IsWasabiWalletUp, perform. cbn [bind]. repeat answer.
    all: cbn; repeat constructor.
  - destruct m; cbn [invoke_payload wallet_segment];
      via_do do_requests; assumption.
  - destruct m; cbn [invoke_plain wallet_segment];
      via_do do_requests; assumption.
Qed.

(** A call never sends a second request: there is no retry. *)
Lemma at_most_one_request (c : client) (R : Type) (m : method R) (h : env) :
  (length (requests (run h (invoke c m)).2) <= 1)%nat.
Proof.
  apply (always_run _ _ (invoke_requests c m) h).
Qed.

Lemma do_requests_url (T : Type) (c : client) (method : Method)
    (w : string) (in_ : any.t) (out : reply T) :
  always (do c method w in_ out) []
    (fun _ t => requests_url (Sprintf_url (host c) (port c) w) t).
Proof.
  symbolic.
  all: unfold requests_url, targets, requests, draws, marshallings,
         request_errors; cbn.
  all: first
         [ left; repeat split; eauto; fail
         | right; left; repeat split; eauto; fail
         | right; right; repeat split;
           eexists; split; [reflexivity | apply set_headers_URL] ].
Qed.

Lemma invoke_requests_url (c : client) (R : Type) (m : method R) :
  always (invoke c m) []
    (fun _ t =>
       match m with
       | IsWasabiWalletUp =>
           targets t = [] /\ requests t = [] /\
           exists ans,
             dials t = [("tcp", host c +:+ ":" +:+ fmt.itoa (port c), ans)]
       | _ =>
           requests_url
             (Sprintf_url (host c) (port c) (wallet_segment m)) t
       end).
Proof.
  destruct m as [| T m | m]; cbn [invoke].
  - unfold client_IsWasabiWalletUp, perform. cbn [bind]. repeat answer.
    all: cbn; repeat split; eauto.
  - destruct m; cbn [invoke_payload wallet_segment];
      via_do do_requests_url; assumption.
  - destruct m; cbn [invoke_plain wallet_segment];
      via_do do_requests_url; assumption.
Qed.

(** C7: constructing a client from a configuration with host 127.0.0.1
    and port 0 succeeds, and the client's port is 37128. Every call of a
    method of that client that gets as far as building a request builds
    exactly one, for the address [http://127.0.0.1:37128/] followed by
    the wallet name for a wallet-scoped method and by nothing for the
    others, and the request it sends, exactly one unless building it
    failed, has that address; a call builds no request only when the
    draw of the id or the encoding of the envelope failed. The address
    is the text handed to [http.NewRequest]: the wallet name is in it as
    the caller gave it. [IsWasabiWalletUp], which is no RPC, dials
    127.0.0.1:37128 instead. *)
Theorem default_port_url (cfg : Config) :
  Host cfg = "127.0.0.1" ->
  Port cfg = 0 ->
  exists c,
    NewClient cfg = (Some c, None) /\
    port c = 37128 /\
    forall (R : Type) (m : method R) (h : env),
      let t := (run h (invoke c m)).2 in
      match m with
      | IsWasabiWalletUp =>
          targets t = [] /\ requests t = [] /\
          exists ans, dials t = [("tcp", "127.0.0.1:37128", ans)]
      | _ =>
          requests_url ("http://127.0.0.1:37128/" +:+ wallet_segment m) t
      end.
Proof.
  intros Hhost Hport.
  assert (Hv : Validate cfg = (set_Port cfg 37128, None)).
  { apply Validate_default_port_accepts;
      [rewrite Hhost; discriminate | rewrite Hhost; reflexivity | exact Hport]. }
  unfold NewClient. rewrite Hv.
  set (c := {| httpClient :=
                 match Transport (set_Port cfg 37128) with
                 | Some t => http_ClientWith t
                 | None => http_DefaultClient
                 end;
               host := Host (set_Port cfg 37128);
               port := Port (set_Port cfg 37128);
               headers := CustomHeaders (set_Port cfg 37128) |}).
  exists c. split; [reflexivity |]. split; [reflexivity |].
  intros R m h. cbv zeta.
  pose proof (always_run _ _ (invoke_requests_url c m) h) as H.
  cbn [c host port set_Port Host Port] in H. rewrite Hhost in H.
  destruct m; exact H.
Qed.

Lemma default_port_url_witness :
  Host cfg_default_port = "127.0.0.1" /\
  Port cfg_default_port = 0 /\
  exists c,
    NewClient cfg_default_port = (Some c, None) /\
    port c = 37128 /\
    forall (R : Type) (m : method R) (h : env),
      let t := (run h (invoke c m)).2 in
      match m with
      | IsWasabiWalletUp =>
          targets t = [] /\ requests t = [] /\
          exists ans, dials t = [("tcp", "127.0.0.1:37128", ans)]
      | _ =>
          requests_url ("http://127.0.0.1:37128/" +:+ wallet_segment m) t
      end.
Proof.
  split; [reflexivity | split; [reflexivity |]].
  exact (default_port_url cfg_default_port eq_refl eq_refl).
Defined.

(** A call that encodes its envelope does reach the address: against a
    daemon that answers, [ListCoins] on the client of the default port
    builds its one request for the wallet and sends it. *)
Example default_port_url_sends :
  let t := (run daemon_null
              (invoke local_client (Payload (ListCoins "savings")))).2 in
  targets t = ["http://127.0.0.1:37128/savings"] /\
  map Request.URL (requests t) = ["http://127.0.0.1:37128/savings"].
Proof. split; reflexivity. Qed.

Example default_port_url_ListCoins :
  requests (run daemon_null
              (invoke local_client (Payload (ListCoins "savings")))).2
  = [{| Request.Method := "POST";
        Request.URL := "http://127.0.0.1:37128/savings";
        Request.Header := [];
        Request.Body := "{}" |}].
Proof. reflexivity. Qed.

Example default_port_url_LoadWallet :
  map Request.URL
    (requests (run daemon_null
                 (invoke local_client (Plain (LoadWallet "savings")))).2)
  = ["http://127.0.0.1:37128/"].
Proof. reflexivity. Qed.

Lemma invoke_error_literal (c : client) (T : Type) (m : payload_method T) :
  always (invoke_payload c m) []
    (fun r _ =>
       r.2 <> None ->
       r.1 = match m in payload_method T return T with
             | GetFeeRates => Some ∅
             | m' => zero_of m'
             end).
Proof.
  destruct m; cbn [invoke_payload zero_of];
    (apply always_bind; eapply always_mono;
     [apply always_True
     | intros [v [e |]] t _; cbn; intros H;
       first [reflexivity | exfalso; apply H; reflexivity]]).
Qed.

(** C10, as the code has it: when a method with a payload returns an
    error, the payload that comes with it is the zero value of its type,
    except for [GetFeeRates], which returns an empty map that is not
    nil. In no case does a partly decoded payload come with an error. *)
Theorem error_comes_with_fixed_payload (c : client) (T : Type)
    (m : payload_method T) (h : env) :
  (run h (invoke_payload c m)).1.2 <> None ->
  (run h (invoke_payload c m)).1.1
  = match m in payload_method T return T with
    | GetFeeRates => Some ∅
    | m' => zero_of m'
    end.
Proof.
  apply (always_run _ _ (invoke_error_literal c m) h).
Qed.

Lemma error_comes_with_fixed_payload_witness :
  (run unreachable (invoke_payload local_client GetStatus)).1.2 <> None /\
  (run unreachable (invoke_payload local_client GetStatus)).1.1
  = zero_of GetStatus.
Proof.
  assert (H : (run unreachable (invoke_payload local_client GetStatus)).1.2
              <> None) by (vm_compute; discriminate).
  split; [exact H |].
  exact (error_comes_with_fixed_payload local_client GetStatus unreachable H).
Defined.

(** C10 as stated fails: [GetFeeRates] returns an error together with a
    map that is not the zero value of its type, the nil map. *)
Lemma GetFeeRates_error_payload_not_zero :
  (run unreachable (invoke_payload local_client GetFeeRates)).1
  = (Some ∅, Some (errorString "connection refused")) /\
  (run unreachable (invoke_payload local_client GetFeeRates)).1.1
  <> zero_of GetFeeRates.
Proof. split; [reflexivity | discriminate]. Qed.

(** ** Several callers on one client *)

Ltac lock_step :=
  lazymatch goal with
  | |- forall _, _ => intros ?
  | |- _ /\ _ => split; [reflexivity |]
  | |- _ = _ => reflexivity
  | |- locking _ (Ret _) => reflexivity
  | |- locking _ (Vis _ _) => cbn [locking kind]
  | |- locking _ ?p =>
      let x := head_scrutinee p in
      (tryif is_var x then destruct x else destruct x eqn:?); cbn [bind]
  end.

Lemma locking_bind_pure (A B : Type) (held : bool) (p : prog A)
    (f : A -> prog B) :
  (forall a, exists b, f a = Ret b) ->
  locking held p -> locking held (bind p f).
Proof.
  intros Hf. revert held.
  induction p as [a | X e k IH]; intros held H; cbn [bind locking] in *.
  - destruct (Hf a) as [b ->]. exact H.
  - destruct (kind e); [destruct H as [H1 H2]; split; auto ..| auto].
Qed.

(** [do] takes the mutex before it sends, sends at most while it holds
    it, and gives it back on every path. *)
Lemma do_locking (T : Type) (c : client) (method : Method) (w : string)
    (in_ : any.t) (out : reply T) :
  locking false (do c method w in_ out).
Proof.
  unfold do, encodeClientRequest, decodeClientResponse, perform. cbn [bind].
  repeat lock_step.
Qed.

Lemma invoke_locking (c : client) (R : Type) (m : method R) :
  locking false (invoke c m).
Proof.
  destruct m as [| T m | m]; cbn [invoke].
  - unfold client_IsWasabiWalletUp, perform. cbn [bind]. repeat lock_step.
  - destruct m; cbn [invoke_payload];
      (apply locking_bind_pure; [intros [v [e |]]; eauto | apply do_locking]).
  - destruct m; cbn [invoke_plain];
      (apply locking_bind_pure; [intros [v e]; eauto | apply do_locking]).
Qed.

(** One step of a goroutine keeps the discipline, and changes who owns
    the mutex in one of three ways: not at all, by taking it when it is
    free, by giving it back. *)
Lemma advance_ok (h : answers) (held owner held' : bool) (th th' : thread) :
  thread_ok owner th ->
  (owner = true -> held = true) ->
  advance h held th = Some (held', th') ->
  exists owner',
    thread_ok owner' th' /\
    ((owner' = owner /\ held' = held) \/
     (owner = false /\ owner' = true /\ held = false /\ held' = true) \/
     (owner = true /\ owner' = false /\ held' = false)).
Proof.
  intros Hok Hheld Hadv.
  destruct th as [R p | R hc req k]; cbn [advance thread_ok] in *.
  - destruct p as [a | X e k]; [discriminate |].
    destruct e; cbn [locking kind] in Hok;
      try (injection Hadv as <- <-; exists owner; split; [apply Hok | auto 10]).
    + destruct Hok as [-> Hk]. destruct held; [discriminate |].
      injection Hadv as <- <-. exists true. split; [apply Hk | auto 10].
    + destruct Hok as [-> Hk]. rewrite (Hheld eq_refl) in Hadv.
      injection Hadv as <- <-. exists false. split; [apply Hk | auto 10].
  - destruct Hok as [-> Hk]. injection Hadv as <- <-.
    exists true. split; [apply Hk | auto 10].
Qed.

Lemma pool_inv_init : pool_inv pool_init None.
Proof.
  split; [reflexivity | discriminate |].
  intros i th H. discriminate.
Qed.

Lemma pool_inv_step (c : client) (a : action) (st st' : pool)
    (o : option nat) :
  pool_inv st o -> pool_step c a st = Some st' -> exists o', pool_inv st' o'.
Proof.
  intros [Hl Ho Hth] Hstep. destruct a as [R m | i h]; cbn in Hstep.
  - injection Hstep as <-. exists o. split; cbn.
    + exact Hl.
    + intros i Hi. destruct (Ho i Hi) as [th Hth'].
      exists th. apply lookup_app_l_Some. exact Hth'.
    + intros i th Hi. apply lookup_app_Some in Hi as [Hi | [Hlen Hi]].
      * apply Hth, Hi.
      * apply list_lookup_singleton_Some in Hi as [Hi <-].
        assert (owner_at o i = false) as ->.
        { apply bool_decide_eq_false. intros Hoi.
          destruct (Ho i Hoi) as [th Hth']. apply lookup_lt_Some in Hth'. lia. }
        apply invoke_locking.
  - destruct (threads st !! i) as [th |] eqn:Hi; [| discriminate].
    destruct (advance h (locked st) th) as [[held' th'] |] eqn:Hadv;
      [| discriminate].
    injection Hstep as <-.
    assert (Hlt : (i < length (threads st))%nat)
      by (eapply lookup_lt_Some; eauto).
    assert (Hheld : owner_at o i = true -> locked st = true).
    { intros Hown. apply bool_decide_eq_true in Hown. rewrite Hl, Hown.
      reflexivity. }
    destruct (@advance_ok h (locked st) (owner_at o i) held' th th'
                (Hth i th Hi) Hheld Hadv) as (owner' & Hok' & Hcase).
    clear Hheld.
    assert (Hframe : forall o' : option nat,
               (forall j, j <> i -> owner_at o' j = owner_at o j) ->
               owner_at o' i = owner' ->
               forall j th0, <[i := th']> (threads st) !! j = Some th0 ->
                             thread_ok (owner_at o' j) th0).
    { intros o' Hothers Hme j th0 Hj. destruct (decide (j = i)) as [-> | Hne].
      - rewrite list_lookup_insert_eq in Hj by exact Hlt.
        injection Hj as <-. rewrite Hme. exact Hok'.
      - rewrite list_lookup_insert_ne in Hj by congruence.
        rewrite Hothers by exact Hne. apply Hth, Hj. }
    assert (Hsome : forall j, is_Some (threads st !! j) ->
                              is_Some (<[i := th']> (threads st) !! j)).
    { intros j Hj. apply lookup_lt_is_Some. rewrite length_insert.
      apply lookup_lt_is_Some, Hj. }
    destruct Hcase as [[-> ->] | [(Hown & -> & Hheld & ->) | (Hown & -> & ->)]].
    + exists o. split; cbn; auto.
    + assert (o = None) as ->.
      { rewrite Hl in Hheld. apply bool_decide_eq_false in Hheld.
        destruct o; [exfalso; apply Hheld; eauto | reflexivity]. }
      exists (Some i). split; cbn.
      * reflexivity.
      * intros j [= <-]. apply Hsome. eauto.
      * apply Hframe.
        -- intros j Hne. unfold owner_at.
           rewrite !bool_decide_eq_false_2; congruence.
        -- apply bool_decide_eq_true_2. reflexivity.
    + apply bool_decide_eq_true in Hown. subst o.
      exists None. split; cbn.
      * reflexivity.
      * discriminate.
      * apply Hframe.
        -- intros j Hne. unfold owner_at.
           rewrite !bool_decide_eq_false_2; congruence.
        -- apply bool_decide_eq_false_2. discriminate.
Qed.

Lemma pool_inv_steps (c : client) (acts : list action) (st st' : pool)
    (o : option nat) :
  pool_inv st o -> pool_steps c acts st = Some st' -> exists o', pool_inv st' o'.
Proof.
  revert st o. induction acts as [| a acts IH]; intros st o Hinv Hsteps;
    cbn in Hsteps.
  - injection Hsteps as <-. eauto.
  - destruct (pool_step c a st) as [st1 |] eqn:Hstep; [| discriminate].
    destruct (@pool_inv_step c a st st1 o Hinv Hstep) as [o1 Hinv1]. eauto.
Qed.

Lemma in_flight_none (ths : list thread) :
  (forall i th, ths !! i = Some th -> is_in_flight th = false) ->
  in_flight ths = 0%nat.
Proof.
  induction ths as [| th ths IH]; intros H; cbn; [reflexivity |].
  rewrite (H 0%nat th eq_refl), IH; [reflexivity |].
  intros i th' Hi. apply (H (S i)), Hi.
Qed.

Lemma in_flight_owner (ths : list thread) (o : option nat) :
  (forall i th, ths !! i = Some th -> is_in_flight th = true -> o = Some i) ->
  (in_flight ths <= 1)%nat.
Proof.
  revert o. induction ths as [| th ths IH]; intros o H; cbn; [lia |].
  destruct (is_in_flight th) eqn:Hth.
  - rewrite in_flight_none; [lia |].
    intros i th' Hi. destruct (is_in_flight th') eqn:Hth'; [| reflexivity].
    pose proof (H 0%nat th eq_refl Hth) as H0.
    pose proof (H (S i) th' Hi Hth') as H1. congruence.
  - apply (IH (o ≫= fun i => match i with O => None | S j => Some j end)).
    intros i th' Hi Hth'. rewrite (H (S i) th' Hi Hth'). reflexivity.
Qed.

Lemma in_flight_is_owner (owner : bool) (th : thread) :
  thread_ok owner th -> is_in_flight th = true -> owner = true.
Proof.
  destruct th; cbn; [discriminate | tauto].
Qed.

(** C8: on one client, whatever methods the callers invoke and however
    their steps interleave, at most one request has been sent and not
    yet answered. *)
Theorem one_request_in_flight (c : client) (acts : list action) (st : pool) :
  pool_steps c acts pool_init = Some st ->
  (in_flight (threads st) <= 1)%nat.
Proof.
  intros Hsteps.
  destruct (@pool_inv_steps c acts pool_init st None pool_inv_init Hsteps)
    as [o [_ _ Hth]].
  apply in_flight_owner with (o := o). intros i th Hi Hfl.
  pose proof (@in_flight_is_owner _ _ (Hth i th Hi) Hfl) as Hown.
  apply bool_decide_eq_true in Hown. exact Hown.
Qed.

Lemma one_request_in_flight_witness :
  pool_steps local_client two_callers pool_init = Some pool_two_callers /\
  (in_flight (threads pool_two_callers) <= 1)%nat.
Proof.
  assert (H : pool_steps local_client two_callers pool_init
              = Some pool_two_callers) by (vm_compute; reflexivity).
  split; [exact H |].
  exact (one_request_in_flight local_client two_callers H).
Defined.

(** In that pool the first caller's request is in flight, the mutex is
    held, and the second caller cannot get past [Lock]. *)
Example two_callers_one_waits :
  in_flight (threads pool_two_callers) = 1%nat /\
  locked pool_two_callers = true /\
  pool_step local_client (Advance 1 (steady daemon_null)) pool_two_callers
  = None.
Proof. repeat split; vm_compute; reflexivity. Qed.

(** * More of the code *)

(** ** Validation and construction *)

Lemma ContainsAny_host (s : string) :
  strings.ContainsAny s "/:" = false <->
  ~ In "/"%char (list_ascii_of_string s) /\
  ~ In ":"%char (list_ascii_of_string s).
Proof.
  rewrite <- not_true_iff_false, ContainsAny_spec. cbn. split.
  - intros H. split; intros Hin; apply H; eauto.
  - intros [H1 H2] (c & Hin & [<- | [<- | []]]); auto.
Qed.

Lemma check_headers_None (entries : list (string * string)) :
  check_headers entries = None <->
  forall k v, In (k, v) entries ->
    k <> "" /\ v <> "" /\ k <> "Authorization".
Proof.
  induction entries as [| [k v] rest IH]; cbn.
  - split; [intros _ k v [] | reflexivity].
  - destruct (String.eqb_spec k "") as [-> | Hk].
    { split; [discriminate |]. intros H.
      destruct (H "" v (or_introl eq_refl)) as [H' _]. congruence. }
    destruct (String.eqb_spec v "") as [-> | Hv].
    { split; [discriminate |]. intros H.
      destruct (H k "" (or_introl eq_refl)) as (_ & H' & _). congruence. }
    destruct (String.eqb_spec k "Authorization") as [-> | Ha].
    { split; [discriminate |]. intros H.
      destruct (H _ v (or_introl eq_refl)) as (_ & _ & H'). congruence. }
    rewrite IH. split.
    + intros H k' v' [[= <- <-] | Hin]; auto.
    + intros H k' v' Hin. apply H. right. exact Hin.
Qed.

(** What validation accepts, all cases at once: a host that is not
    empty and has no slash and no colon, and then either port zero (and
    nothing else is looked at), or a port from 1 to 65535, a user and a
    password that are both empty or both set, and custom headers, if
    there is a map, with no empty key, no empty value and no key
    [Authorization]. *)
Theorem Validate_accepts_iff (c : Config) :
  (Validate c).2 = None <->
  host_ok (Host c) /\
  (Port c = 0 \/
   (1 <= Port c <= 65535 /\
    (RpcUser c = "" <-> RpcPassword c = "") /\
    forall m, CustomHeaders c = Some m -> headers_ok m)).
Proof.
  unfold Validate, host_ok, headers_ok.
  destruct (String.eqb_spec (Host c) "") as [Hh | Hh].
  { cbn. split; [discriminate | tauto]. }
  destruct (strings.ContainsAny (Host c) "/:") eqn:Hany.
  { cbn. split; [discriminate |]. intros [(_ & H) _].
    apply ContainsAny_host in H. congruence. }
  apply ContainsAny_host in Hany.
  destruct (Z.eqb_spec (Port c) 0) as [Hp | Hp].
  { cbn. split; [tauto | reflexivity]. }
  rewrite Z.gtb_ltb.
  destruct (Z.ltb_spec (Port c) 0) as [Hlo | Hlo];
    [| destruct (Z.ltb_spec 65535 (Port c)) as [Hhi | Hhi]]; cbn [orb].
  1, 2: cbn; split; [discriminate | intros [_ [H | [H _]]]; lia].
  assert (Hport : 1 <= Port c <= 65535) by lia.
  destruct (nonempty (RpcUser c)) eqn:Hu;
    destruct (nonempty (RpcPassword c)) eqn:Hpw; cbn [andb negb].
  all: try apply nonempty_true in Hu; try apply nonempty_false in Hu.
  all: try apply nonempty_true in Hpw; try apply nonempty_false in Hpw.
  2, 3: cbn; split; [discriminate | intros [_ [H | (_ & H & _)]]; tauto].
  all: destruct (CustomHeaders c) as [m |] eqn:Hm; cbn.
  1, 3: rewrite check_headers_None; split;
    [ intros H; split; [tauto |]; right; split; [exact Hport |];
      split; [tauto |]; intros m' [= <-] k v Hkv; apply (H k v);
      apply list_elem_of_In, elem_of_map_to_list; exact Hkv
    | intros [_ [H | (_ & _ & H)]]; [contradiction |];
      intros k v Hkv; apply (H m eq_refl);
      apply elem_of_map_to_list, list_elem_of_In; exact Hkv ].
  all: split; [intros _ | reflexivity]; split; [tauto |]; right;
    split; [exact Hport |]; split; [tauto | discriminate].
Qed.

(** Go does not fix the order in which the loop over the custom headers
    visits them. Whether the loop ends without an error does not depend
    on that order. *)
Theorem check_headers_any_order (l1 l2 : list (string * string)) :
  Permutation l1 l2 ->
  (check_headers l1 = None <-> check_headers l2 = None).
Proof.
  intros Hperm. rewrite !check_headers_None.
  split; intros H k v Hin; apply H.
  - apply (Permutation_in _ (Permutation_sym Hperm)), Hin.
  - apply (Permutation_in _ Hperm), Hin.
Qed.

Lemma check_headers_any_order_witness :
  Permutation cfg_two_bad_headers (rev cfg_two_bad_headers) /\
  (check_headers cfg_two_bad_headers = None <->
   check_headers (rev cfg_two_bad_headers) = None).
Proof.
  assert (H : Permutation cfg_two_bad_headers (rev cfg_two_bad_headers))
    by apply Permutation_rev.
  split; [exact H |].
  exact (check_headers_any_order H).
Defined.

(** Which error the loop reports does depend on the order. *)
Example check_headers_error_varies :
  check_headers cfg_two_bad_headers
  = Some (errorString "custom header key must not be empty") /\
  check_headers (rev cfg_two_bad_headers)
  = Some (errorString "custom header value must not be empty").
Proof. split; reflexivity. Qed.

(** Validation is not something to run twice: a configuration with
    both credentials and no custom headers passes, and what validation
    leaves behind does not pass again, because the [Authorization] entry
    that validation added is a custom header that validation refuses.
    [NewClient] on the validated configuration fails for that reason. *)
Theorem Validate_twice_rejects_credentials (c : Config) :
  host_ok (Host c) ->
  1 <= Port c <= 65535 ->
  RpcUser c <> "" -> RpcPassword c <> "" ->
  CustomHeaders c = None ->
  (Validate c).2 = None /\
  (Validate (Validate c).1).2
  = Some (errorString "custom header key must not be Authorization") /\
  NewClient (Validate c).1
  = (None,
     Some (wrapError "invalid config: "
             (errorString "custom header key must not be Authorization"))).
Proof.
  intros (Hh & Hhost) Hport Hu Hp Hm.
  apply ContainsAny_host in Hhost.
  rewrite (Validate_synthesizes_credentials c Hh Hhost Hport Hu Hp Hm).
  cbn [fst snd].
  assert (H2 : Validate
                 (set_CustomHeaders c
                    (Some {["Authorization"
                            := basic_auth (RpcUser c) (RpcPassword c)]}))
               = (set_CustomHeaders c
                    (Some {["Authorization"
                            := basic_auth (RpcUser c) (RpcPassword c)]}),
                  Some (errorString
                          "custom header key must not be Authorization"))).
  { unfold Validate. cbn [Host Port RpcUser RpcPassword CustomHeaders
                            set_CustomHeaders notnil range].
    apply String.eqb_neq in Hh. apply nonempty_true in Hu, Hp.
    rewrite Hh, Hhost, Hu, Hp. cbn [andb negb].
    destruct (Z.eqb_spec (Port c) 0); [lia |].
    rewrite Z.gtb_ltb.
    destruct (Z.ltb_spec (Port c) 0); [lia |].
    destruct (Z.ltb_spec 65535 (Port c)); [lia |].
    cbn [orb]. rewrite map_to_list_singleton. reflexivity. }
  split; [reflexivity |]. split.
  - rewrite H2. reflexivity.
  - unfold NewClient. rewrite H2. reflexivity.
Qed.

Lemma Validate_twice_rejects_credentials_witness :
  host_ok (Host cfg_credentials) /\
  1 <= Port cfg_credentials <= 65535 /\
  RpcUser cfg_credentials <> "" /\ RpcPassword cfg_credentials <> "" /\
  CustomHeaders cfg_credentials = None /\
  (Validate cfg_credentials).2 = None /\
  (Validate (Validate cfg_credentials).1).2
  = Some (errorString "custom header key must not be Authorization") /\
  NewClient (Validate cfg_credentials).1
  = (None,
     Some (wrapError "invalid config: "
             (errorString "custom header key must not be Authorization"))).
Proof.
  assert (H1 : host_ok (Host cfg_credentials)).
  { unfold host_ok. cbn. repeat split; [discriminate | |];
      intros H; repeat (destruct H as [H | H]; [discriminate H |]);
      exact H. }
  assert (H2 : 1 <= Port cfg_credentials <= 65535) by (cbn; lia).
  assert (H3 : RpcUser cfg_credentials <> "") by discriminate.
  assert (H4 : RpcPassword cfg_credentials <> "") by discriminate.
  assert (H5 : CustomHeaders cfg_credentials = None) by reflexivity.
  repeat (split; [assumption |]).
  exact (Validate_twice_rejects_credentials cfg_credentials H1 H2 H3 H4 H5).
Defined.

(** Every client that [NewClient] returns has the host of the
    configuration, not empty and with no slash and no colon, and a port
    from 1 to 65535: the port of the configuration, or 37128 when that
    was zero. *)
Theorem NewClient_host_port (cfg : Config) (c : client) :
  NewClient cfg = (Some c, None) ->
  host c = Host cfg /\ host_ok (host c) /\
  1 <= port c <= 65535 /\
  port c = (if Port cfg =? 0 then 37128 else Port cfg).
Proof.
  unfold NewClient, Validate. intros H.
  destruct (String.eqb_spec (Host cfg) "") as [Hh | Hh]; [discriminate H |].
  destruct (strings.ContainsAny (Host cfg) "/:") eqn:Hany;
    [discriminate H |].
  apply ContainsAny_host in Hany.
  destruct (Z.eqb_spec (Port cfg) 0) as [Hp | Hp].
  { injection H as <-. cbn. unfold host_ok. repeat split; tauto || lia. }
  rewrite Z.gtb_ltb in H.
  destruct (Z.ltb_spec (Port cfg) 0) as [Hlo | Hlo]; [discriminate H |].
  destruct (Z.ltb_spec 65535 (Port cfg)) as [Hhi | Hhi]; [discriminate H |].
  cbn [orb] in H.
  destruct (nonempty (RpcUser cfg) && negb (nonempty (RpcPassword cfg)));
    [discriminate H |].
  destruct (negb (nonempty (RpcUser cfg)) && nonempty (RpcPassword cfg));
    [discriminate H |].
  destruct (CustomHeaders cfg) as [m0 |]; cbn [notnil range] in H.
  - destruct (check_headers (map_to_list m0)); [discriminate H |].
    injection H as <-; cbn; unfold host_ok; repeat split; tauto || lia.
  - destruct (nonempty (RpcUser cfg) && nonempty (RpcPassword cfg));
      injection H as <-; cbn; unfold host_ok; repeat split; tauto || lia.
Qed.

Lemma NewClient_host_port_witness :
  NewClient cfg_credentials_headers
  = (Some {| httpClient := http_DefaultClient; host := "127.0.0.1";
             port := 37128; headers := Some {["X-Trace" := "1"]} |}, None) /\
  host_ok "127.0.0.1" /\ 1 <= 37128 <= 65535.
Proof.
  assert (H : NewClient cfg_credentials_headers
              = (Some {| httpClient := http_DefaultClient;
                         host := "127.0.0.1"; port := 37128;
                         headers := Some {["X-Trace" := "1"]} |}, None))
    by (vm_compute; reflexivity).
  split; [exact H |].
  destruct (NewClient_host_port cfg_credentials_headers H)
    as (_ & Hhost & Hport & _).
  split; [exact Hhost | exact Hport].
Defined.

Lemma basic_auth_nonempty (user password : string) :
  basic_auth user password <> "".
Proof. unfold basic_auth. cbn. discriminate. Qed.

(** The headers of a client built from a configuration with a port
    other than zero: no key and no value is empty, and an entry
    [Authorization] is there only when the configuration had both
    credentials and no map of custom headers; its value is then the
    Basic credential of the two. *)
Theorem NewClient_headers (cfg : Config) (c : client)
    (m : gmap string string) :
  NewClient cfg = (Some c, None) ->
  Port cfg <> 0 ->
  headers c = Some m ->
  (forall k v, m !! k = Some v -> k <> "" /\ v <> "") /\
  (forall v, m !! "Authorization" = Some v ->
     CustomHeaders cfg = None /\
     RpcUser cfg <> "" /\ RpcPassword cfg <> "" /\
     v = basic_auth (RpcUser cfg) (RpcPassword cfg)).
Proof.
  unfold NewClient, Validate. intros H Hport Hm.
  destruct (String.eqb (Host cfg) ""); [discriminate H |].
  destruct (strings.ContainsAny (Host cfg) "/:"); [discriminate H |].
  destruct (Z.eqb_spec (Port cfg) 0) as [Hp | _]; [contradiction |].
  destruct ((Port cfg <? 0) || (Port cfg >? 65535)); [discriminate H |].
  destruct (nonempty (RpcUser cfg)) eqn:Hu;
    destruct (nonempty (RpcPassword cfg)) eqn:Hpw; cbn [andb negb] in H;
    try discriminate H.
  all: destruct (CustomHeaders cfg) as [m0 |] eqn:Hm0; cbn [notnil range] in H.
  all: try (destruct (check_headers (map_to_list m0)) eqn:Hcheck;
            [discriminate H |]; injection H as <-; cbn in Hm;
            rewrite Hm0 in Hm; injection Hm as <-;
            pose proof (proj1 (check_headers_None _) Hcheck) as Hok;
            split;
            [ intros k v Hkv;
              destruct (Hok k v) as (? & ? & _);
              [apply list_elem_of_In, elem_of_map_to_list; exact Hkv | auto]
            | intros v Hkv;
              destruct (Hok "Authorization" v) as (_ & _ & Hne);
              [apply list_elem_of_In, elem_of_map_to_list; exact Hkv
              | congruence] ]).
  - injection H as <-. cbn in Hm. injection Hm as <-.
    apply nonempty_true in Hu, Hpw. split.
    + intros k v Hkv. apply lookup_singleton_Some in Hkv as [<- <-].
      split; [discriminate | apply basic_auth_nonempty].
    + intros v Hkv. apply lookup_singleton_Some in Hkv as [_ <-]. auto.
  - injection H as <-. cbn in Hm. congruence.
Qed.

Lemma NewClient_headers_witness :
  let c := {| httpClient := http_DefaultClient; host := "127.0.0.1";
              port := 37128;
              headers := Some {["Authorization" := "Basic YWxpY2U6c2VjcmV0"]}
           |} in
  NewClient cfg_credentials = (Some c, None) /\
  Port cfg_credentials <> 0 /\
  headers c = Some {["Authorization" := "Basic YWxpY2U6c2VjcmV0"]} /\
  (forall k v,
     ({["Authorization" := "Basic YWxpY2U6c2VjcmV0"]} : gmap string string)
       !! k = Some v -> k <> "" /\ v <> "").
Proof.
  intros c.
  assert (H1 : NewClient cfg_credentials = (Some c, None))
    by (vm_compute; reflexivity).
  assert (H2 : Port cfg_credentials <> 0) by discriminate.
  assert (H3 : headers c
               = Some {["Authorization" := "Basic YWxpY2U6c2VjcmV0"]})
    by reflexivity.
  split; [exact H1 | split; [exact H2 | split; [exact H3 |]]].
  exact (proj1 (NewClient_headers cfg_credentials H1 H2 H3)).
Defined.

(** ** The pipeline, one call at a time *)

(** What holds of the error and the trace of [do], and of
    [IsWasabiWalletUp] with no error, holds of every method. *)
Lemma invoke_via_do (c : client) (P : option error -> trace -> Prop) :
  (forall (T : Type) method w in_ (out : reply T),
     always (do c method w in_ out) [] (fun r t => P r.2 t)) ->
  always (client_IsWasabiWalletUp c) [] (fun _ t => P None t) ->
  forall (R : Type) (m : method R),
    always (invoke c m) [] (fun r t => P (err_of m r) t).
Proof.
  intros Hdo Hup R m. destruct m as [| T m | m]; cbn [invoke err_of].
  - exact Hup.
  - destruct m; cbn [invoke_payload];
      (apply always_bind; eapply always_mono;
       [apply Hdo | intros [v [e |]] t H; exact H]).
  - destruct m; cbn [invoke_plain];
      (apply always_bind; eapply always_mono;
       [apply Hdo | intros [v e] t H; exact H]).
Qed.

(** Membership in the short lists that a trace gives, with what the
    equations say. *)
Ltac pick :=
  repeat match goal with
         | H : False |- _ => destruct H
         | H : _ \/ _ |- _ => destruct H as [H | H]
         | H : exists _, _ |- _ => destruct H as [? H]
         end;
  simplify_eq.

Ltac up_cases :=
  unfold client_IsWasabiWalletUp, perform; cbn [bind]; repeat answer;
  cbn [always].

Lemma do_protocol (T : Type) (c : client) (method : Method) (w : string)
    (in_ : any.t) (out : reply T) :
  always (do c method w in_ out) [] (fun _ t => In (tags t) call_shapes).
Proof.
  symbolic.
  all: cbn; tauto.
Qed.

Lemma invoke_protocol (c : client) (R : Type) (m : method R) :
  always (invoke c m) [] (fun _ t => In (tags t) call_shapes).
Proof.
  apply (@invoke_via_do c (fun _ t => In (tags t) call_shapes)).
  - intros. apply do_protocol.
  - up_cases. all: cbn; tauto.
Qed.

(** The order of the steps of a call, whatever the environment does:
    the steps of every call of every method are one of [call_shapes].
    So a call locks only after the request is built, sends at most one
    request and only while it holds the mutex, closes the body exactly
    when it has decoded it, and ends with the mutex released. *)
Theorem call_protocol (c : client) (R : Type) (m : method R) (h : env) :
  In (tags (run h (invoke c m)).2) call_shapes.
Proof.
  apply (always_run _ _ (invoke_protocol c m) h).
Qed.

(** *** Failures before the request is sent *)

Lemma do_rand_failure (T : Type) (c : client) (method : Method) (w : string)
    (in_ : any.t) (out : reply T) :
  always (do c method w in_ out) []
    (fun r t =>
       forall max err, In (max, inr err) (draws t) ->
         r.2 = Some (wrapError "failed to generate request id: " err) /\
         tags t = [TRand]).
Proof.
  symbolic.
  all: unfold draws; cbn; intros max err Hin; pick.
  all: auto.
Qed.

Lemma invoke_rand_failure (c : client) (R : Type) (m : method R) :
  always (invoke c m) []
    (fun r t =>
       forall max err, In (max, inr err) (draws t) ->
         err_of m r
         = Some (wrapError "failed to generate request id: " err) /\
         tags t = [TRand]).
Proof.
  apply (@invoke_via_do c
           (fun e t =>
              forall max err, In (max, inr err) (draws t) ->
                e = Some (wrapError "failed to generate request id: " err) /\
                tags t = [TRand])).
  - intros. apply do_rand_failure.
  - up_cases. all: cbn; intros max err [].
Qed.

(** When the random source fails, the call returns its error wrapped
    as [failed to generate request id: ...] and does nothing else: no
    envelope is marshalled, no request is built, the mutex is not
    touched. *)
Theorem rand_failure_stops_call (c : client) (R : Type) (m : method R)
    (h : env) (max : Z) (err : error) :
  In (max, inr err) (draws (run h (invoke c m)).2) ->
  err_of m (run h (invoke c m)).1
  = Some (wrapError "failed to generate request id: " err) /\
  tags (run h (invoke c m)).2 = [TRand].
Proof.
  apply (always_run _ _ (invoke_rand_failure c m) h).
Qed.

Lemma rand_failure_stops_call_witness :
  let p := invoke local_client (Plain (LoadWallet "savings")) in
  In (math_MaxInt64, inr (errorString "EOF")) (draws (run no_entropy p).2) /\
  (run no_entropy p).1
  = Some (wrapError "failed to generate request id: " (errorString "EOF")) /\
  tags (run no_entropy p).2 = [TRand].
Proof.
  intros p.
  assert (H : In (math_MaxInt64, inr (errorString "EOF"))
                (draws (run no_entropy p).2))
    by (vm_compute; left; reflexivity).
  split; [exact H |].
  exact (rand_failure_stops_call local_client
           (Plain (LoadWallet "savings")) no_entropy _ _ H).
Defined.

Lemma do_build_failure (T : Type) (c : client) (method : Method) (w : string)
    (in_ : any.t) (out : reply T) :
  always (do c method w in_ out) []
    (fun r t =>
       forall err,
         (exists req, In (req, inr err) (marshallings t)) \/
         In err (request_errors t) ->
         r.2 = Some err /\ ~ In TLock (tags t) /\ requests t = []).
Proof.
  symbolic.
  all: unfold marshallings, request_errors, requests; cbn.
  all: intros err Hin; pick.
  all: repeat split; try reflexivity; intuition discriminate.
Qed.

Lemma invoke_build_failure (c : client) (R : Type) (m : method R) :
  always (invoke c m) []
    (fun r t =>
       forall err,
         (exists req, In (req, inr err) (marshallings t)) \/
         In err (request_errors t) ->
         err_of m r = Some err /\ ~ In TLock (tags t) /\ requests t = []).
Proof.
  apply (@invoke_via_do c
           (fun e t =>
              forall err,
                (exists req, In (req, inr err) (marshallings t)) \/
                In err (request_errors t) ->
                e = Some err /\ ~ In TLock (tags t) /\ requests t = [])).
  - intros. apply do_build_failure.
  - up_cases. all: cbn; intros err [[req []] | []].
Qed.

(** When [json.Marshal] or [http.NewRequest] fails, the call returns
    that very error, never takes the mutex and sends nothing. *)
Theorem build_failure_stops_call (c : client) (R : Type) (m : method R)
    (h : env) (err : error) :
  (exists req, In (req, inr err) (marshallings (run h (invoke c m)).2)) \/
  In err (request_errors (run h (invoke c m)).2) ->
  err_of m (run h (invoke c m)).1 = Some err /\
  ~ In TLock (tags (run h (invoke c m)).2) /\
  requests (run h (invoke c m)).2 = [].
Proof.
  apply (always_run _ _ (invoke_build_failure c m) h).
Qed.

Lemma build_failure_stops_call_witness :
  let p := invoke local_client (Payload GetStatus) in
  ((exists req,
      In (req, inr (errorString "invalid URL"))
        (marshallings (run bad_url p).2)) \/
   In (errorString "invalid URL") (request_errors (run bad_url p).2)) /\
  (run bad_url p).1.2 = Some (errorString "invalid URL") /\
  ~ In TLock (tags (run bad_url p).2) /\
  requests (run bad_url p).2 = [].
Proof.
  intros p.
  assert (H : (exists req,
                 In (req, inr (errorString "invalid URL"))
                   (marshallings (run bad_url p).2)) \/
              In (errorString "invalid URL")
                (request_errors (run bad_url p).2))
    by (right; vm_compute; left; reflexivity).
  split; [exact H |].
  exact (build_failure_stops_call local_client (Payload GetStatus)
           bad_url _ H).
Defined.

(** *** The round trip *)

Lemma do_transport_error (T : Type) (c : client) (method : Method)
    (w : string) (in_ : any.t) (out : reply T) :
  always (do c method w in_ out) []
    (fun r t =>
       forall err, In err (transport_errors t) ->
         r.2 = Some err /\ decoded_bodies t = [] /\ closed_bodies t = [] /\
         tags t = [TRand; TMarshal; TNewRequest; TLock; TDo; TUnlock]).
Proof.
  symbolic.
  all: unfold transport_errors, decoded_bodies, closed_bodies; cbn.
  all: intros err Hin; pick.
  all: auto.
Qed.

Lemma invoke_transport_error (c : client) (R : Type) (m : method R) :
  always (invoke c m) []
    (fun r t =>
       forall err, In err (transport_errors t) ->
         err_of m r = Some err /\ decoded_bodies t = [] /\
         closed_bodies t = [] /\
         tags t = [TRand; TMarshal; TNewRequest; TLock; TDo; TUnlock]).
Proof.
  apply (@invoke_via_do c
           (fun e t =>
              forall err, In err (transport_errors t) ->
                e = Some err /\ decoded_bodies t = [] /\
                closed_bodies t = [] /\
                tags t = [TRand; TMarshal; TNewRequest; TLock; TDo;
                          TUnlock])).
  - intros. apply do_transport_error.
  - up_cases. all: cbn; intros err [].
Qed.

(** When the HTTP client returns an error, the call returns that very
    error (even one that is the null-result sentinel: the filter of [do]
    is not applied to it), decodes and closes nothing, and releases the
    mutex. *)
Theorem transport_error_verbatim (c : client) (R : Type) (m : method R)
    (h : env) (err : error) :
  In err (transport_errors (run h (invoke c m)).2) ->
  err_of m (run h (invoke c m)).1 = Some err /\
  decoded_bodies (run h (invoke c m)).2 = [] /\
  closed_bodies (run h (invoke c m)).2 = [] /\
  tags (run h (invoke c m)).2
  = [TRand; TMarshal; TNewRequest; TLock; TDo; TUnlock].
Proof.
  apply (always_run _ _ (invoke_transport_error c m) h).
Qed.

Lemma transport_error_verbatim_witness :
  let p := invoke local_client (Plain Stop) in
  In (errorString "connection refused")
    (transport_errors (run unreachable p).2) /\
  (run unreachable p).1 = Some (errorString "connection refused") /\
  decoded_bodies (run unreachable p).2 = [] /\
  closed_bodies (run unreachable p).2 = [] /\
  tags (run unreachable p).2
  = [TRand; TMarshal; TNewRequest; TLock; TDo; TUnlock].
Proof.
  intros p.
  assert (H : In (errorString "connection refused")
                (transport_errors (run unreachable p).2))
    by (vm_compute; left; reflexivity).
  split; [exact H |].
  exact (transport_error_verbatim local_client (Plain Stop) unreachable _ H).
Defined.

Lemma do_body_closed (T : Type) (c : client) (method : Method)
    (w : string) (in_ : any.t) (out : reply T) :
  always (do c method w in_ out) []
    (fun _ t =>
       forall resp, In resp (responses t) ->
         decoded_bodies t = closed_bodies t /\
         closed_bodies t
         = if Response.StatusCode resp =? 200
           then [Response.Body resp] else []).
Proof.
  symbolic.
  all: unfold responses, decoded_bodies, closed_bodies; cbn.
  all: intros resp Hin; pick.
  all: unfold http_StatusOK in *.
  all: destruct (Response.StatusCode resp =? 200); cbn in *;
    try discriminate; auto.
Qed.

Lemma invoke_body_closed (c : client) (R : Type) (m : method R) :
  always (invoke c m) []
    (fun _ t =>
       forall resp, In resp (responses t) ->
         decoded_bodies t = closed_bodies t /\
         closed_bodies t
         = if Response.StatusCode resp =? 200
           then [Response.Body resp] else []).
Proof.
  apply (@invoke_via_do c
           (fun _ t =>
              forall resp, In resp (responses t) ->
                decoded_bodies t = closed_bodies t /\
                closed_bodies t
                = if Response.StatusCode resp =? 200
                  then [Response.Body resp] else [])).
  - intros. apply do_body_closed.
  - up_cases. all: cbn; intros resp [].
Qed.

(** The body of a response is decoded and closed, once each, exactly
    when the status is 200. With any other status the body is neither
    read nor closed: [do] leaves it open. *)
Theorem body_closed_iff_status_ok (c : client) (R : Type) (m : method R)
    (h : env) (resp : Response.t) :
  In resp (responses (run h (invoke c m)).2) ->
  decoded_bodies (run h (invoke c m)).2
  = closed_bodies (run h (invoke c m)).2 /\
  closed_bodies (run h (invoke c m)).2
  = if Response.StatusCode resp =? 200 then [Response.Body resp] else [].
Proof.
  apply (always_run _ _ (invoke_body_closed c m) h).
Qed.

Lemma body_closed_iff_status_ok_witness :
  let p := invoke local_client (Payload GetFeeRates) in
  let resp := {| Response.StatusCode := 404; Response.Body := "{}" |} in
  In resp (responses (run daemon_not_found p).2) /\
  decoded_bodies (run daemon_not_found p).2
  = closed_bodies (run daemon_not_found p).2 /\
  closed_bodies (run daemon_not_found p).2 = [].
Proof.
  intros p resp.
  assert (H : In resp (responses (run daemon_not_found p).2))
    by (vm_compute; left; reflexivity).
  split; [exact H |].
  exact (body_closed_iff_status_ok local_client (Payload GetFeeRates)
           daemon_not_found resp H).
Defined.

Example body_closed_on_200 :
  closed_bodies (run daemon_null (invoke local_client (Plain Stop))).2
  = ["{}"].
Proof. reflexivity. Qed.

Lemma set_headers_fields (h : gomap string) (req : Request.t) :
  Request.Method (set_headers h req) = Request.Method req /\
  Request.Body (set_headers h req) = Request.Body req /\
  Request.Header (set_headers h req) = Request.Header req ++ range h.
Proof.
  unfold set_headers. destruct h as [m |]; cbn [notnil range].
  - generalize (map_to_list m). intros l. revert req.
    induction l as [| [k v] l IH]; intros req; cbn.
    + rewrite app_nil_r. auto.
    + destruct (IH (Request.Header_Set k v req)) as (-> & -> & ->).
      cbn. rewrite <- app_assoc. auto.
  - rewrite app_nil_r. auto.
Qed.

Lemma do_request_shape (T : Type) (c : client) (method : Method)
    (w : string) (in_ : any.t) (out : reply T) :
  always (do c method w in_ out) []
    (fun _ t =>
       forall req, In req (requests t) ->
         Request.Method req = "POST" /\
         Request.Header req = range (headers c) /\
         exists envelope,
           marshallings t = [(envelope, inl (Request.Body req))]).
Proof.
  symbolic.
  all: unfold requests, marshallings; cbn.
  all: intros req Hin; pick.
  all: match goal with
       | |- context [set_headers ?h ?r] =>
           destruct (set_headers_fields h r) as (-> & -> & ->)
       end.
  all: cbn; eauto.
Qed.

Lemma invoke_request_shape (c : client) (R : Type) (m : method R) :
  always (invoke c m) []
    (fun _ t =>
       forall req, In req (requests t) ->
         Request.Method req = "POST" /\
         Request.Header req = range (headers c) /\
         exists envelope,
           marshallings t = [(envelope, inl (Request.Body req))]).
Proof.
  apply (@invoke_via_do c
           (fun _ t =>
              forall req, In req (requests t) ->
                Request.Method req = "POST" /\
                Request.Header req = range (headers c) /\
                exists envelope,
                  marshallings t = [(envelope, inl (Request.Body req))])).
  - intros. apply do_request_shape.
  - up_cases. all: cbn; intros req [].
Qed.

(** Every request that a call sends is a POST whose body is exactly the
    bytes [json.Marshal] returned for the envelope, and on which every
    header of the client was set once and nothing else was set. *)
Theorem request_shape (c : client) (R : Type) (m : method R) (h : env)
    (req : Request.t) :
  In req (requests (run h (invoke c m)).2) ->
  Request.Method req = "POST" /\
  Request.Header req = range (headers c) /\
  exists envelope,
    marshallings (run h (invoke c m)).2
    = [(envelope, inl (Request.Body req))].
Proof.
  apply (always_run _ _ (invoke_request_shape c m) h).
Qed.

Lemma request_shape_witness :
  let p := invoke header_client (Plain (StopCoinJoin "savings")) in
  let req := {| Request.Method := "POST";
                Request.URL := "http://127.0.0.1:37128/savings";
                Request.Header := [("X-Trace", "1")];
                Request.Body := "{}" |} in
  In req (requests (run daemon_null p).2) /\
  Request.Header req = range (headers header_client).
Proof.
  intros p req.
  assert (H : In req (requests (run daemon_null p).2))
    by (vm_compute; left; reflexivity).
  split; [exact H |].
  exact (proj1 (proj2 (request_shape header_client
                         (Plain (StopCoinJoin "savings")) daemon_null
                         req H))).
Defined.

(** *** Decoding *)

Ltac honest H :=
  unfold honest_codec, codec_errors in H; cbn in H;
  repeat match type of H with
         | Forall _ (_ :: _) =>
             let H1 := fresh "Hhonest" in
             apply Forall_cons in H as [H1 H]
         end.

Ltac filtered :=
  try match goal with
      | H1 : errors_Is_RPCErrNullResult ?e = false,
        H2 : negb (errors_Is_RPCErrNullResult ?e) = false |- _ =>
          rewrite H1 in H2; discriminate H2
      | H : negb (errors_Is_RPCErrNullResult RPCErrNullResult) = true |- _ =>
          discriminate H
      | H : negb (errors_Is_RPCErrNullResult (rpcError _)) = false |- _ =>
          discriminate H
      end.

Lemma do_codec_error (T : Type) (c : client) (method : Method)
    (w : string) (in_ : any.t) (out : reply T) :
  always (do c method w in_ out) []
    (fun r t =>
       honest_codec t ->
       forall err, In err (codec_errors t) -> r.2 = Some err).
Proof.
  symbolic.
  all: intros Hh; honest Hh; unfold codec_errors; cbn; intros err Hin; pick.
  all: filtered; cbn in *; try discriminate; try reflexivity.
Qed.

Lemma invoke_codec_error (c : client) (R : Type) (m : method R) :
  always (invoke c m) []
    (fun r t =>
       honest_codec t ->
       forall err, In err (codec_errors t) -> err_of m r = Some err).
Proof.
  apply (@invoke_via_do c
           (fun e t =>
              honest_codec t ->
              forall err, In err (codec_errors t) -> e = Some err)).
  - intros. apply do_codec_error.
  - up_cases. all: cbn; intros _ err [].
Qed.

(** An error of the JSON decoder, on the body of the response or on the
    [result] member, is returned to the caller as it is. (The decoder is
    taken not to answer with the package's own null-result sentinel,
    which [do] would filter.) *)
Theorem codec_error_verbatim (c : client) (R : Type) (m : method R)
    (h : env) (err : error) :
  honest_codec (run h (invoke c m)).2 ->
  In err (codec_errors (run h (invoke c m)).2) ->
  err_of m (run h (invoke c m)).1 = Some err.
Proof.
  intros Hh. revert err.
  apply (always_run _ _ (invoke_codec_error c m) h Hh).
Qed.

Lemma codec_error_verbatim_witness :
  let p := invoke local_client (Payload (Broadcast "savings" "00")) in
  let err := errorString "json: cannot unmarshal bool" in
  honest_codec (run daemon_bad_result p).2 /\
  In err (codec_errors (run daemon_bad_result p).2) /\
  (run daemon_bad_result p).1.2 = Some err.
Proof.
  intros p err.
  assert (H1 : honest_codec (run daemon_bad_result p).2)
    by (vm_compute; repeat constructor).
  assert (H2 : In err (codec_errors (run daemon_bad_result p).2))
    by (vm_compute; left; reflexivity).
  split; [exact H1 | split; [exact H2 |]].
  exact (codec_error_verbatim local_client
           (Payload (Broadcast "savings" "00")) daemon_bad_result
           err H1 H2).
Defined.

Lemma do_nil_reply_result (c : client) (method : Method)
    (w : string) (in_ : any.t) :
  always (do c method w in_ reply_nil) []
    (fun r t =>
       honest_codec t ->
       forall e raw, In e (envelopes t) ->
         clientResponse.Error e = None ->
         clientResponse.Result e = Some raw ->
         exists err,
           codec_errors t = [err] /\ result_decodings t = [raw] /\
           r.2 = Some err).
Proof.
  unfold do, encodeClientRequest, decodeClientResponse, perform.
  cbn [bind contents]. repeat answer. all: cbn [always].
  all: intros Hh; honest Hh; unfold envelopes, codec_errors, result_decodings;
    cbn; intros env raw Hin Herr Hres; pick.
  all: filtered; try congruence.
  all: eexists; repeat split; congruence.
Qed.

Lemma invoke_plain_result (c : client) (m : plain_method) :
  always (invoke_plain c m) []
    (fun r t =>
       honest_codec t ->
       forall e raw, In e (envelopes t) ->
         clientResponse.Error e = None ->
         clientResponse.Result e = Some raw ->
         exists err,
           codec_errors t = [err] /\ result_decodings t = [raw] /\
           r = Some err).
Proof.
  destruct m; cbn [invoke_plain];
    (apply always_bind; eapply always_mono;
     [apply do_nil_reply_result | intros [v e] t H; exact H]).
Qed.

(** A method without payload fails whenever the daemon answers with a
    [result] that is not null (and no [error]): [do] passes a nil reply,
    and unmarshalling into nil is an error of encoding/json, which the
    method returns. *)
Theorem plain_method_rejects_result (c : client) (m : plain_method)
    (h : env) (e : clientResponse.t) (raw : RawMessage) :
  honest_codec (run h (invoke_plain c m)).2 ->
  In e (envelopes (run h (invoke_plain c m)).2) ->
  clientResponse.Error e = None ->
  clientResponse.Result e = Some raw ->
  exists err,
    codec_errors (run h (invoke_plain c m)).2 = [err] /\
    result_decodings (run h (invoke_plain c m)).2 = [raw] /\
    (run h (invoke_plain c m)).1 = Some err.
Proof.
  intros Hh. revert e raw.
  apply (always_run _ _ (invoke_plain_result c m) h Hh).
Qed.

Lemma plain_method_rejects_result_witness :
  let p := invoke_plain local_client (LoadWallet "savings") in
  let e := {| clientResponse.Version := "2.0";
              clientResponse.Result := Some "true";
              clientResponse.Error := None |} in
  honest_codec (run daemon_result p).2 /\
  In e (envelopes (run daemon_result p).2) /\
  clientResponse.Error e = None /\
  clientResponse.Result e = Some "true" /\
  exists err,
    codec_errors (run daemon_result p).2 = [err] /\
    result_decodings (run daemon_result p).2 = ["true"] /\
    (run daemon_result p).1 = Some err.
Proof.
  intros p e.
  assert (H1 : honest_codec (run daemon_result p).2)
    by (vm_compute; repeat constructor).
  assert (H2 : In e (envelopes (run daemon_result p).2))
    by (vm_compute; left; reflexivity).
  split; [exact H1 | split; [exact H2 |]].
  split; [reflexivity | split; [reflexivity |]].
  exact (plain_method_rejects_result local_client (LoadWallet "savings")
           daemon_result e H1 H2 eq_refl eq_refl).
Defined.

Lemma do_success (T : Type) (c : client) (method : Method)
    (w : string) (in_ : any.t) (v0 : T) :
  always (do c method w in_ (reply_ptr v0)) []
    (fun r t =>
       honest_codec t -> r.2 = None ->
       (r.1 = v0 /\ result_decodings t = [] /\
        exists e, In e (envelopes t) /\
                  clientResponse.Result e = None /\
                  clientResponse.Error e = None) \/
       (exists e raw,
          In e (envelopes t) /\
          clientResponse.Result e = Some raw /\
          clientResponse.Error e = None /\
          In (Event (json_Unmarshal raw v0) (r.1, None)) t)).
Proof.
  unfold do, encodeClientRequest, decodeClientResponse, perform.
  cbn [bind contents]. repeat answer. all: cbn [always].
  all: intros Hh; honest Hh; cbn [fst snd]; intros Hr; try discriminate Hr.
  all: filtered.
  all: unfold envelopes, result_decodings; cbn.
  - right. eexists _, _. repeat split; eauto 12.
  - left. repeat split. eexists. repeat split; eauto.
Qed.

Lemma invoke_payload_success (c : client) (T : Type) (m : payload_method T) :
  always (invoke_payload c m) []
    (fun r t =>
       honest_codec t -> r.2 = None ->
       (r.1 = zero_of m /\ result_decodings t = [] /\
        exists e, In e (envelopes t) /\
                  clientResponse.Result e = None /\
                  clientResponse.Error e = None) \/
       (exists e raw,
          In e (envelopes t) /\
          clientResponse.Result e = Some raw /\
          clientResponse.Error e = None /\
          In (Event (json_Unmarshal raw (zero_of m)) (r.1, None)) t)).
Proof.
  destruct m; cbn [invoke_payload zero_of];
    (apply always_bind; eapply always_mono;
     [apply do_success
     | intros [v [e |]] t H; cbn [always fst snd];
       [intros _ Hr; discriminate Hr | exact H]]).
Qed.

(** Where the payload of a successful call comes from. When a method
    with a payload returns no error, either the envelope had a null
    [result] and a null [error] and the payload is the zero value, or
    the envelope had no [error] and the payload is exactly what
    [json.Unmarshal] left in the target, which held the zero value, when
    it decoded the [result] member without error. *)
Theorem payload_is_what_was_unmarshalled (c : client) (T : Type)
    (m : payload_method T) (h : env) :
  honest_codec (run h (invoke_payload c m)).2 ->
  (run h (invoke_payload c m)).1.2 = None ->
  ((run h (invoke_payload c m)).1.1 = zero_of m /\
   result_decodings (run h (invoke_payload c m)).2 = [] /\
   exists e, In e (envelopes (run h (invoke_payload c m)).2) /\
             clientResponse.Result e = None /\
             clientResponse.Error e = None) \/
  (exists e raw,
     In e (envelopes (run h (invoke_payload c m)).2) /\
     clientResponse.Result e = Some raw /\
     clientResponse.Error e = None /\
     In (Event (json_Unmarshal raw (zero_of m))
           ((run h (invoke_payload c m)).1.1, None))
       (run h (invoke_payload c m)).2).
Proof.
  apply (always_run _ _ (invoke_payload_success c m) h).
Qed.

Lemma payload_is_what_was_unmarshalled_witness :
  let p := invoke_payload local_client (CreateWallet "savings" "secret") in
  honest_codec (run daemon_result p).2 /\
  (run daemon_result p).1.2 = None /\
  result_decodings (run daemon_result p).2 = ["true"] /\
  In (Event (json_Unmarshal "true" "") ("", None)) (run daemon_result p).2.
Proof.
  intros p.
  assert (H1 : honest_codec (run daemon_result p).2)
    by (vm_compute; repeat constructor).
  assert (H2 : (run daemon_result p).1.2 = None) by reflexivity.
  split; [exact H1 | split; [exact H2 | split; [reflexivity |]]].
  destruct (payload_is_what_was_unmarshalled local_client
              (CreateWallet "savings" "secret") daemon_result H1 H2)
    as [(_ & Hd & _) | (e & raw & _ & _ & _ & Hin)].
  - discriminate Hd.
  - vm_compute. repeat (first [left; reflexivity | right]).
Defined.

Lemma do_remote_error_shape (T : Type) (c : client) (method : Method)
    (w : string) (in_ : any.t) (out : reply T) :
  always (do c method w in_ out) []
    (fun r t =>
       forall e raw, In e (envelopes t) ->
         clientResponse.Error e = Some raw ->
         exists v oe,
           error_decodings t = [(raw, v, oe)] /\
           r.2 = Some (rpcError
                         match oe with
                         | Some _ => {| Code := -32000; Message := raw;
                                        Data := any.Nil |}
                         | None => v
                         end)).
Proof.
  symbolic.
  all: unfold envelopes, error_decodings; cbn; intros env raw Hin Herr; pick.
  all: filtered; try congruence.
  all: eexists _, _; split; reflexivity.
Qed.

Lemma invoke_remote_error_shape (c : client) (R : Type) (m : method R) :
  always (invoke c m) []
    (fun r t =>
       forall e raw, In e (envelopes t) ->
         clientResponse.Error e = Some raw ->
         exists v oe,
           error_decodings t = [(raw, v, oe)] /\
           err_of m r
           = Some (rpcError
                     match oe with
                     | Some _ => {| Code := -32000; Message := raw;
                                    Data := any.Nil |}
                     | None => v
                     end)).
Proof.
  apply (@invoke_via_do c
           (fun err t =>
              forall e raw, In e (envelopes t) ->
                clientResponse.Error e = Some raw ->
                exists v oe,
                  error_decodings t = [(raw, v, oe)] /\
                  err
                  = Some (rpcError
                            match oe with
                            | Some _ => {| Code := -32000; Message := raw;
                                           Data := any.Nil |}
                            | None => v
                            end))).
  - intros. apply do_remote_error_shape.
  - up_cases. all: cbn; intros env raw [].
Qed.

(** The error of the daemon reaches the caller of every method: with a
    non-null [error] member in the envelope, the method returns the
    structured error as it was decoded from that member, or the generic
    server error with the raw text of the member when it does not decode.
    The filter of [do] for null results never drops it. *)
Theorem remote_error_surfaces (c : client) (R : Type) (m : method R)
    (h : env) (e : clientResponse.t) (raw : RawMessage) :
  In e (envelopes (run h (invoke c m)).2) ->
  clientResponse.Error e = Some raw ->
  exists v oe,
    error_decodings (run h (invoke c m)).2 = [(raw, v, oe)] /\
    err_of m (run h (invoke c m)).1
    = Some (rpcError
              match oe with
              | Some _ => {| Code := -32000; Message := raw;
                             Data := any.Nil |}
              | None => v
              end).
Proof.
  revert e raw. apply (always_run _ _ (invoke_remote_error_shape c m) h).
Qed.

Lemma remote_error_surfaces_witness :
  let p := invoke local_client (Payload (GetWalletInfo "savings")) in
  In envelope_number_error (envelopes (run daemon_number_error p).2) /\
  clientResponse.Error envelope_number_error = Some "42" /\
  (run daemon_number_error p).1.2
  = Some (rpcError {| Code := -32000; Message := "42"; Data := any.Nil |}).
Proof.
  intros p.
  assert (H1 : In envelope_number_error
                 (envelopes (run daemon_number_error p).2))
    by (vm_compute; left; reflexivity).
  split; [exact H1 | split; [reflexivity |]].
  destruct (remote_error_surfaces local_client
              (Payload (GetWalletInfo "savings")) daemon_number_error
              envelope_number_error H1 eq_refl) as (v & oe & Hd & Hr).
  vm_compute in Hd. injection Hd as <- <-. exact Hr.
Defined.

Lemma Uint64_range (val : Z) : 0 <= Uint64 val < 2 ^ 64.
Proof.
  unfold Uint64. rewrite Z.land_ones by lia.
  apply Z.mod_pos_bound. lia.
Qed.

Lemma Uint64_small (val : Z) : 0 <= val < 2 ^ 64 -> Uint64 val = val.
Proof.
  intros H. unfold Uint64. rewrite Z.land_ones by lia.
  rewrite Z.abs_eq by lia. apply Z.mod_small. exact H.
Qed.

Lemma do_envelope (T : Type) (c : client) (method : Method)
    (w : string) (in_ : any.t) (out : reply T) :
  always (do c method w in_ out) []
    (fun _ t =>
       forall req ans, In (req, ans) (marshallings t) ->
         clientRequest.Version req = "2.0" /\
         clientRequest.Method req = method /\
         clientRequest.Params req = in_ /\
         exists val,
           draws t = [(math_MaxInt64, inl val)] /\
           clientRequest.Id req = Uint64 val).
Proof.
  symbolic.
  all: unfold marshallings, draws; cbn.
  all: intros req ans Hin; pick.
  all: cbn; eauto 8.
Qed.

Lemma invoke_envelope (c : client) (R : Type) (m : method R) :
  always (invoke c m) []
    (fun _ t =>
       forall req ans, In (req, ans) (marshallings t) ->
         clientRequest.Version req = "2.0" /\
         0 <= clientRequest.Id req < 2 ^ 64 /\
         exists val,
           draws t = [(math_MaxInt64, inl val)] /\
           (0 <= val < math_MaxInt64 ->
            clientRequest.Id req = val)).
Proof.
  apply (@invoke_via_do c
           (fun _ t =>
              forall req ans, In (req, ans) (marshallings t) ->
                clientRequest.Version req = "2.0" /\
                0 <= clientRequest.Id req < 2 ^ 64 /\
                exists val,
                  draws t = [(math_MaxInt64, inl val)] /\
                  (0 <= val < math_MaxInt64 ->
                   clientRequest.Id req = val))).
  - intros T method w in_ out. eapply always_mono; [apply do_envelope |].
    cbn beta. intros _ t H req ans Hin.
    destruct (H req ans Hin) as (Hv & _ & _ & val & Hd & Hid).
    split; [exact Hv |]. rewrite Hid. split; [apply Uint64_range |].
    exists val. split; [exact Hd |].
    intros Hval. apply Uint64_small. unfold math_MaxInt64 in Hval. lia.
  - up_cases. all: cbn; intros req ans [].
Qed.

(** The envelope of a request. Every envelope that a call hands to
    [json.Marshal] has version 2.0 and an id that fits in 64 bits; the
    call drew exactly one random number, below [math.MaxInt64], and the
    id is that number whenever the source of randomness answered within
    the bounds it was asked for. *)
Theorem envelope_version_and_id (c : client) (R : Type) (m : method R)
    (h : env) (req : clientRequest.t) (ans : result string) :
  In (req, ans) (marshallings (run h (invoke c m)).2) ->
  clientRequest.Version req = "2.0" /\
  0 <= clientRequest.Id req < 2 ^ 64 /\
  exists val,
    draws (run h (invoke c m)).2 = [(math_MaxInt64, inl val)] /\
    (0 <= val < math_MaxInt64 -> clientRequest.Id req = val).
Proof.
  revert req ans. apply (always_run _ _ (invoke_envelope c m) h).
Qed.

Lemma IsWasabiWalletUp_dial (c : client) :
  always (client_IsWasabiWalletUp c) []
    (fun up t =>
       exists ans,
         dials t = [("tcp", host c +:+ ":" +:+ fmt.itoa (port c), ans)] /\
         match ans with
         | inl conn => up = true /\ hang_ups t = [conn]
         | inr _ => up = false /\ hang_ups t = []
         end /\
         requests t = [] /\ draws t = [] /\
         Forall (fun g => g <> TLock) (tags t)).
Proof.
  up_cases.
  all: eexists; split; [reflexivity |]; cbn; repeat split.
  all: repeat constructor; discriminate.
Qed.

(** The liveness probe. [IsWasabiWalletUp] dials the host and port of
    the client over TCP once; it answers true exactly when the dial
    succeeded, and then closes the connection it was given and no other.
    It sends no request, draws no id and never takes the lock of the
    client. *)
Theorem IsWasabiWalletUp_probe (c : client) (h : env) :
  exists ans,
    dials (run h (client_IsWasabiWalletUp c)).2
    = [("tcp", host c +:+ ":" +:+ fmt.itoa (port c), ans)] /\
    match ans with
    | inl conn => (run h (client_IsWasabiWalletUp c)).1 = true /\
                  hang_ups (run h (client_IsWasabiWalletUp c)).2 = [conn]
    | inr _ => (run h (client_IsWasabiWalletUp c)).1 = false /\
               hang_ups (run h (client_IsWasabiWalletUp c)).2 = []
    end /\
    requests (run h (client_IsWasabiWalletUp c)).2 = [] /\
    draws (run h (client_IsWasabiWalletUp c)).2 = [] /\
    Forall (fun g => g <> TLock) (tags (run h (client_IsWasabiWalletUp c)).2).
Proof.
  apply (always_run _ _ (IsWasabiWalletUp_dial c) h).
Qed.

Lemma envelope_version_and_id_witness :
  let p := invoke local_client (Payload GetStatus) in
  let req := {| clientRequest.Version := "2.0";
                clientRequest.Method := MethodGetStatus;
                clientRequest.Params := any.Nil;
                clientRequest.Id := 4 |} in
  In (req, inl "{}") (marshallings (run daemon_null p).2) /\
  0 <= clientRequest.Id req < 2 ^ 64.
Proof.
  intros p req.
  assert (H : In (req, inl "{}") (marshallings (run daemon_null p).2))
    by (vm_compute; left; reflexivity).
  split; [exact H |].
  exact (proj1 (proj2 (envelope_version_and_id local_client
                         (Payload GetStatus) daemon_null req
                         (inl "{}") H))).
Defined.

Lemma invoke_request_url (c : client) (R : Type) (m : method R) :
  always (invoke c m) []
    (fun _ t =>
       forall req, In req (requests t) ->
         Request.URL req
         = "http://" +:+ host c +:+ ":" +:+ fmt.itoa (port c) +:+ "/"
           +:+ wallet_segment m).
Proof.
  eapply always_mono; [apply invoke_requests |].
  cbn beta zeta. intros _ t (_ & Hr & _) req Hin.
  rewrite List.Forall_forall in Hr. rewrite (Hr req Hin).
  reflexivity.
Qed.

(** Where a request goes. Every request of a method was built by
    [http.NewRequest] from the text [http://host:port/] followed by the
    wallet name the method was given, or by nothing for a method that
    takes no target wallet. The wallet name is put in that text as it
    is, without escaping. *)
Theorem request_url (c : client) (R : Type) (m : method R) (h : env)
    (req : Request.t) :
  In req (requests (run h (invoke c m)).2) ->
  Request.URL req
  = "http://" +:+ host c +:+ ":" +:+ fmt.itoa (port c) +:+ "/"
    +:+ wallet_segment m.
Proof.
  revert req. apply (always_run _ _ (invoke_request_url c m) h).
Qed.

Lemma request_url_witness :
  let p := invoke local_client (Payload (ListCoins "my wallet?x=1")) in
  exists req,
    In req (requests (run daemon_null p).2) /\
    Request.URL req = "http://127.0.0.1:37128/my wallet?x=1".
Proof.
  intros p.
  destruct (requests (run daemon_null p).2) as [| req l] eqn:E;
    [vm_compute in E; discriminate E |].
  assert (H : In req (requests (run daemon_null p).2))
    by (rewrite E; left; reflexivity).
  exists req. rewrite <- E. split; [exact H |].
  exact (request_url local_client (Payload (ListCoins "my wallet?x=1"))
           daemon_null req H).
Defined.

(** ** More on several callers: progress *)

Lemma reachable_pool_inv (c : client) (st : pool) :
  reachable c st -> exists o, pool_inv st o.
Proof.
  intros [acts Hsteps].
  exact (@pool_inv_steps c acts pool_init st None pool_inv_init Hsteps).
Qed.

Lemma owner_at_same (i : nat) : owner_at (Some i) i = true.
Proof. apply bool_decide_eq_true. reflexivity. Qed.

(** A thread that respects the lock discipline fails to step only when
    it has returned, or when it asks for a mutex that is held. *)
Lemma advance_blocks (h : answers) (held owner : bool) (th : thread) :
  thread_ok owner th ->
  (owner = true -> held = true) ->
  is_finished th = false ->
  advance h held th = None ->
  owner = false /\ held = true /\ at_lock th = true.
Proof.
  intros Hok Hheld Hfin Hadv.
  destruct th as [R [r | X e k] | R hc req k]; cbn in *;
    try discriminate.
  destruct e; cbn in *; try discriminate.
  - destruct Hok as [-> _]. destruct held; [auto | discriminate].
  - destruct Hok as [-> _]. rewrite Hheld in Hadv by reflexivity.
    discriminate.
Qed.

Lemma pool_step_blocks (c : client) (st : pool) (o : option nat)
    (i : nat) (th : thread) (h : answers) :
  pool_inv st o ->
  threads st !! i = Some th ->
  is_finished th = false ->
  pool_step c (Advance i h) st = None ->
  locked st = true /\ at_lock th = true /\ o <> Some i.
Proof.
  intros [Hl Ho Hth] Hi Hfin Hstep.
  cbn [pool_step] in Hstep. rewrite Hi in Hstep.
  destruct (advance h (locked st) th) as [[held th'] |] eqn:Hadv;
    [discriminate |].
  pose proof (Hth i th Hi) as Hok.
  destruct (@advance_blocks h (locked st) (owner_at o i) th Hok)
    as (Hown & Hheld & Hat); auto.
  - intros Hown. apply bool_decide_eq_true in Hown. subst o.
    rewrite Hl. apply bool_decide_eq_true. eauto.
  - repeat split; auto. intros ->. rewrite owner_at_same in Hown.
    discriminate.
Qed.

(** The only step that can block. In every pool that callers of one
    client can reach, a goroutine that has not returned and cannot take
    its next step is about to call [Lock] while the mutex is held.
    Nothing else ever fails to step; in particular no goroutine calls
    [Unlock] on a mutex that is not locked. *)
Theorem only_lock_blocks (c : client) (st : pool) (i : nat) (th : thread)
    (h : answers) :
  reachable c st ->
  threads st !! i = Some th ->
  is_finished th = false ->
  pool_step c (Advance i h) st = None ->
  locked st = true /\ at_lock th = true.
Proof.
  intros Hr Hi Hfin Hstep.
  destruct (@reachable_pool_inv c st Hr) as [o Hinv].
  destruct (@pool_step_blocks c st o i th h Hinv Hi Hfin Hstep)
    as (H1 & H2 & _).
  split; assumption.
Qed.

Lemma only_lock_blocks_witness :
  exists th,
    reachable local_client pool_two_callers /\
    threads pool_two_callers !! 1%nat = Some th /\
    is_finished th = false /\
    pool_step local_client (Advance 1 (steady daemon_null)) pool_two_callers
    = None /\
    locked pool_two_callers = true /\ at_lock th = true.
Proof.
  assert (Hr : reachable local_client pool_two_callers)
    by (exists two_callers; vm_compute; reflexivity).
  assert (Hf : is_finished <$> threads pool_two_callers !! 1%nat
               = Some false) by (vm_compute; reflexivity).
  assert (Hs : pool_step local_client (Advance 1 (steady daemon_null))
                 pool_two_callers = None) by (vm_compute; reflexivity).
  destruct (threads pool_two_callers !! 1%nat) as [th |] eqn:Hi;
    [| discriminate Hf].
  injection Hf as Hf.
  exists th. repeat split; auto.
  all: apply (@only_lock_blocks local_client pool_two_callers 1 th
                (steady daemon_null) Hr Hi Hf Hs).
Defined.

(** No deadlock. In every pool that callers of one client can reach,
    while some goroutine has not returned, some goroutine can take a
    step whatever the outside world answers: the goroutine itself when
    the mutex is free, and the one that holds the mutex otherwise. *)
Theorem no_deadlock (c : client) (st : pool) (j : nat) :
  reachable c st ->
  is_finished <$> threads st !! j = Some false ->
  exists i,
    (locked st = false -> i = j) /\
    forall h, is_Some (pool_step c (Advance i h) st).
Proof.
  intros Hr Hj.
  destruct (threads st !! j) as [th |] eqn:Hth; [| discriminate Hj].
  injection Hj as Hfin.
  destruct (@reachable_pool_inv c st Hr) as [o Hinv].
  pose proof Hinv as [Hl Ho Hok].
  destruct o as [i |].
  - exists i. split.
    + rewrite Hl. intros Hf. apply bool_decide_eq_false in Hf.
      exfalso. apply Hf. eauto.
    + intros h. destruct (Ho i eq_refl) as [thi Hi].
      destruct (pool_step c (Advance i h) st) eqn:Hstep; [eauto |].
      assert (Hfi : is_finished thi = false).
      { pose proof (Hok i thi Hi) as H. rewrite owner_at_same in H.
        destruct thi as [R [r | X e k] | R hc req k]; cbn in *;
          [discriminate H | reflexivity | reflexivity]. }
      destruct (@pool_step_blocks c st (Some i) i thi h Hinv Hi Hfi Hstep)
        as (_ & _ & Hne).
      congruence.
  - exists j. split; [reflexivity |]. intros h.
    destruct (pool_step c (Advance j h) st) eqn:Hstep; [eauto |].
    destruct (@pool_step_blocks c st None j th h Hinv Hth Hfin Hstep)
      as (Hlk & _ & _).
    rewrite Hl in Hlk. apply bool_decide_eq_true in Hlk.
    destruct Hlk as [x Hx]. discriminate Hx.
Qed.

Lemma no_deadlock_witness :
  reachable local_client pool_two_callers /\
  is_finished <$> threads pool_two_callers !! 1%nat = Some false /\
  exists i, forall h,
    is_Some (pool_step local_client (Advance i h) pool_two_callers).
Proof.
  assert (Hr : reachable local_client pool_two_callers)
    by (exists two_callers; vm_compute; reflexivity).
  assert (Hf : is_finished <$> threads pool_two_callers !! 1%nat
               = Some false) by (vm_compute; reflexivity).
  split; [exact Hr | split; [exact Hf |]].
  destruct (@no_deadlock local_client pool_two_callers 1 Hr Hf)
    as (i & _ & Hi).
  exists i. exact Hi.
Defined.

(** No call keeps the mutex. In every pool that callers of one client
    can reach, once every goroutine has returned, on whatever path, the
    mutex is free. *)
Theorem mutex_free_at_rest (c : client) (st : pool) :
  reachable c st ->
  forallb is_finished (threads st) = true ->
  locked st = false.
Proof.
  intros Hr Hall.
  destruct (@reachable_pool_inv c st Hr) as [o [Hl Ho Hok]].
  destruct o as [i |]; [| rewrite Hl; reflexivity].
  exfalso. destruct (Ho i eq_refl) as [thi Hi].
  pose proof (Hok i thi Hi) as H. rewrite owner_at_same in H.
  rewrite forallb_forall in Hall.
  assert (Hfin : is_finished thi = true).
  { apply Hall. apply list_elem_of_In. eapply list_elem_of_lookup_2, Hi. }
  destruct thi as [R [r | X e k] | R hc req k]; cbn in *;
    discriminate.
Qed.

Lemma mutex_free_at_rest_witness :
  reachable local_client pool_one_caller_done /\
  forallb is_finished (threads pool_one_caller_done) = true /\
  length (threads pool_one_caller_done) = 1%nat /\
  locked pool_one_caller_done = false.
Proof.
  assert (Hr : reachable local_client pool_one_caller_done)
    by (exists one_caller_done; vm_compute; reflexivity).
  assert (Hf : forallb is_finished (threads pool_one_caller_done) = true)
    by (vm_compute; reflexivity).
  split; [exact Hr | split; [exact Hf | split; [reflexivity |]]].
  exact (@mutex_free_at_rest local_client pool_one_caller_done Hr Hf).
Defined.
